(** * filter_precommit: staged-diff line extraction and log filtering

    A shallow embedding of [src/filter_precommit.py].

    Python [str] values are embedded as [string]; a character is one of the
    256 code points an [ascii] can hold, so the character classes below are
    the restrictions of Python's classes to code points below 256.  Python
    integers are [Z]; [int] converts a run of at most 4300 digits and
    raises [ValueError] on a longer one, as the interpreter does by default.
    The dictionary [changed_lines] is a [gmap string (gset Z)]; the only
    place that reads its keys in order is [any], whose result does not
    depend on the order.  Exceptions are explicit: a function that can
    raise returns a [res]; printing and process exit live in the [io]
    monad.  What the process reads from outside, the output of
    [git diff --staged] and the saved log, is a [world]. *)

From Stdlib Require Import ZArith NArith Ascii String.
From stdpp Require Import base option list strings gmap fin_maps.

Local Open Scope Z_scope.

(** ** Exceptions and results *)

Inductive exn : Type :=
| SystemExit (code : Z)
| ValueError
| KeyError.

Inductive res (A : Type) : Type :=
| Returned (a : A)
| Raised (e : exn).
Arguments Returned {A} a.
Arguments Raised {A} e.

Definition res_bind {A B} (f : A → res B) (r : res A) : res B :=
  match r with
  | Returned a => f a
  | Raised e => Raised e
  end.

#[export] Instance res_ret : MRet res := @Returned.
#[export] Instance res_mbind : MBind res := @res_bind.

(** ** Python string operations *)

Module PyStr.

Definition code (c : ascii) : N := N_of_ascii c.

(** The line feed, the only character the regex [.] refuses. *)
Definition LF : ascii := ascii_of_N 10.

Definition in_range (lo hi : N) (c : ascii) : bool :=
  ((lo <=? code c) && (code c <=? hi))%N.

(** [str.isspace] on one character, also the regex class [\s]:
    TAB..CR, FS..US, space, NEL and NBSP. *)
Definition isspace (c : ascii) : bool :=
  in_range 9 13 c || in_range 28 31 c || in_range 32 32 c
  || in_range 133 133 c || in_range 160 160 c.

(** The regex class [\d]: below 256 the decimal digits are 0..9. *)
Definition isdecimal (c : ascii) : bool := in_range 48 57 c.

(** The line boundaries of [str.splitlines]: LF, VT, FF, CR, FS, GS, RS
    and NEL. *)
Definition islinebreak (c : ascii) : bool :=
  in_range 10 13 c || in_range 28 30 c || in_range 133 133 c.

(** [s.startswith(p)] *)
Definition startswith (s p : string) : bool := String.prefix p s.

(** [s[n:]] *)
Fixpoint drop_chars (n : nat) (s : string) : string :=
  match n, s with
  | O, _ => s
  | S _, EmptyString => EmptyString
  | S n', String _ s' => drop_chars n' s'
  end.

Fixpoint lstrip (s : string) : string :=
  match s with
  | EmptyString => EmptyString
  | String c s' => if isspace c then lstrip s' else s
  end.

Fixpoint rstrip (s : string) : string :=
  match s with
  | EmptyString => EmptyString
  | String c s' =>
      match rstrip s' with
      | EmptyString => if isspace c then EmptyString else String c EmptyString
      | r => String c r
      end
  end.

(** [s.strip()] *)
Definition strip (s : string) : string := rstrip (lstrip s).

(** [needle in hay] *)
Fixpoint contains (needle hay : string) : bool :=
  String.prefix needle hay
  || match hay with
     | EmptyString => false
     | String _ hay' => contains needle hay'
     end.

(** [hay.find(needle)], with [None] for -1; [hay.index(needle)] raises
    [ValueError] exactly when this is [None]. *)
Fixpoint find (needle hay : string) : option nat :=
  if String.prefix needle hay then Some O
  else match hay with
       | EmptyString => None
       | String _ hay' => S <$> find needle hay'
       end.

(** [s.splitlines()]: a CR directly followed by LF is one boundary, and a
    final boundary opens no further line. *)
Fixpoint splitlines (s : string) : list string :=
  match s with
  | EmptyString => []
  | String c s' =>
      if islinebreak c then
        match s' with
        | String c' s'' =>
            if Ascii.eqb c (ascii_of_N 13) && Ascii.eqb c' LF
            then EmptyString :: splitlines s''
            else EmptyString :: splitlines s'
        | EmptyString => [EmptyString]
        end
      else
        match splitlines s' with
        | [] => [String c EmptyString]
        | l :: ls => String c l :: ls
        end
  end.

(** [sep.join(l)] *)
Fixpoint join (sep : string) (l : list string) : string :=
  match l with
  | [] => EmptyString
  | [x] => x
  | x :: l' => x +:+ sep +:+ join sep l'
  end.

(** The number that a string of decimal digits writes, most significant
    digit first. *)
Fixpoint int_acc (acc : Z) (s : string) : Z :=
  match s with
  | EmptyString => acc
  | String c s' => int_acc (10 * acc + (Z.of_N (code c) - 48)) s'
  end.

Definition digits_value (s : string) : Z := int_acc 0 s.

(** The interpreter's default limit on the digits of a decimal string that
    [int] converts ([sys.get_int_max_str_digits()]). *)
Definition int_max_str_digits : nat := 4300.

(** [int(s)] for a string of decimal digits: a string of more digits than
    the limit raises [ValueError]; leading zeros count as digits. *)
Definition int (s : string) : res Z :=
  if (int_max_str_digits <? String.length s)%nat then Raised ValueError
  else Returned (digits_value s).

End PyStr.

(** ** The two regular expressions

    Both patterns are matched by [re.match], that is anchored at the start.
    Every [\d+] in them is followed by a character that is no digit, so the
    backtracking matcher can only succeed with the longest run of digits;
    [digits1] takes that run.  In the comments a group that ends in a star
    is written with a blank before its closing parenthesis. *)

Module Re.
Import PyStr.

(** A literal: the rest of [s] after [l], when [s] starts with [l]. *)
Definition lit (l s : string) : option string :=
  if String.prefix l s then Some (drop_chars (String.length l) s) else None.

Fixpoint span_digits (s : string) : string * string :=
  match s with
  | EmptyString => (EmptyString, EmptyString)
  | String c s' =>
      if isdecimal c
      then let '(d, r) := span_digits s' in (String c d, r)
      else (EmptyString, s)
  end.

(** [\d+] followed by a non-digit: the digits and the rest. *)
Definition digits1 (s : string) : option (string * string) :=
  match span_digits s with
  | (EmptyString, _) => None
  | (d, r) => Some (d, r)
  end.

(** [re.match(r"@@ -\d+,\d+ \+(\d+),\d+ @@", line)]: group 1. *)
Definition hunk_header_match (line : string) : option string :=
  r ← lit "@@ -" line;
  '(_, r) ← digits1 r;
  r ← lit "," r;
  '(_, r) ← digits1 r;
  r ← lit " +" r;
  '(g1, r) ← digits1 r;
  r ← lit "," r;
  '(_, r) ← digits1 r;
  _ ← lit " @@" r;
  Some g1.

(** [(.* )$]: the greedy [.*] stops at the first LF or at the end, and [$]
    holds at the end of the string or just before a final LF. *)
Fixpoint dot_star_end (s : string) : bool :=
  match s with
  | EmptyString => true
  | String c s' =>
      if Ascii.eqb c LF
      then match s' with EmptyString => true | _ => false end
      else dot_star_end s'
  end.

(** [\s*(.* )$]: greedy [\s*], giving characters back one at a time. *)
Fixpoint spaces_message (s : string) : bool :=
  match s with
  | EmptyString => dot_star_end s
  | String c s' => (isspace c && spaces_message s') || dot_star_end s
  end.

(** [(?:\d+:)?\s*(.* )$]: the optional column is tried first. *)
Definition column_message (s : string) : bool :=
  match digits1 s ≫= λ '(_, r), lit ":" r with
  | Some r => spaces_message r || spaces_message s
  | None => spaces_message s
  end.

(** [:(\d+):(?:\d+:)?\s*(.* )$]: group 2. *)
Definition after_path (s : string) : option string :=
  r ← lit ":" s;
  '(g2, r) ← digits1 r;
  r ← lit ":" r;
  if column_message r then Some g2 else None.

(** [(.*?)] followed by the rest: the lazy group grows by one character,
    never a LF, each time the rest of the pattern fails.  [pre] is the
    text consumed so far. *)
Fixpoint lazy_path (pre s : string) : option (string * string) :=
  match after_path s with
  | Some g2 => Some (pre, g2)
  | None =>
      match s with
      | EmptyString => None
      | String c s' =>
          if Ascii.eqb c LF then None
          else lazy_path (pre +:+ String c EmptyString) s'
      end
  end.

(** [log_pattern.match(log)] for
    [^(.*?):(\d+):(?:\d+:)?\s*(.* )$]: groups 1 and 2 (group 3, the
    message, is never used by the caller). *)
Definition log_pattern_match (log : string) : option (string * string) :=
  lazy_path EmptyString log.

End Re.

Import PyStr Re.

(** ** The diff extractor: the loop of [get_changed_lines] *)

(** The three variables the loop updates. *)
Record scan_state : Type := ScanState {
  changed_lines : gmap string (gset Z);
  current_file : option string;
  current_line : Z
}.

(** The state before the first line: [{}], [None], [0]. *)
Definition scan_init : scan_state :=
  {| changed_lines := ∅; current_file := None; current_line := 0 |}.

(** Truth value of [current_file]: [None] and the empty string are false.
    A true value is handed back, since the caller indexes with it. *)
Definition truthy (f : option string) : option string :=
  match f with
  | Some EmptyString => None
  | Some s => Some s
  | None => None
  end.

(** One turn of the loop body on [line]. *)
Definition scan_line (st : scan_state) (line : string) : res scan_state :=
  if startswith line "+++ b/" then
    let f := strip (drop_chars 6 line) in
    Returned {| changed_lines := <[f := ∅]> (changed_lines st);
                current_file := Some f;
                current_line := 0 |}
  else if startswith line "@@" then
    match hunk_header_match line, truthy (current_file st) with
    | Some g1, Some _ =>
        start ← int g1;
        Returned {| changed_lines := changed_lines st;
                    current_file := current_file st;
                    current_line := start |}
    | _, _ => Returned st
    end
  else
    match (if startswith line "+" then truthy (current_file st) else None),
          startswith line "+++" with
    | Some f, false =>
        match changed_lines st !! f with
        | Some lines =>
            Returned {| changed_lines :=
                          <[f := {[current_line st]} ∪ lines]> (changed_lines st);
                        current_file := current_file st;
                        current_line := current_line st + 1 |}
        | None => Raised KeyError
        end
    | _, _ =>
        if startswith line " " || startswith line "-" then
          Returned {| changed_lines := changed_lines st;
                      current_file := current_file st;
                      current_line := current_line st + 1 |}
        else Returned st
    end.

(** [for line in ...: body] *)
Fixpoint scan_lines (st : scan_state) (lines : list string) : res scan_state :=
  match lines with
  | [] => Returned st
  | line :: lines' => st' ← scan_line st line; scan_lines st' lines'
  end.

(** Lines 31 to 55 of the source: from the text of the staged diff to the
    dictionary that is returned. *)
Definition changed_lines_of_diff (diff_output : string)
  : res (gmap string (gset Z)) :=
  st ← scan_lines scan_init (splitlines diff_output);
  Returned (changed_lines st).

(** ** The log filter *)

(** [file_path.strip()] and then [file_path[file_path.index("src/"):]]. *)
Definition relative_path (file_path : string) : res string :=
  let file_path := strip file_path in
  match find "src/" file_path with
  | Some i => Returned (drop_chars i file_path)
  | None => Raised ValueError
  end.

(** [file_path in changed_lines and line_num in changed_lines[file_path]] *)
Definition is_changed (changed_lines : gmap string (gset Z))
    (file_path : string) (line_num : Z) : bool :=
  match changed_lines !! file_path with
  | Some lines => bool_decide (line_num ∈ lines)
  | None => false
  end.

(** [any(file_path in log for file_path in changed_lines)] *)
Definition mentions_changed_file (changed_lines : gmap string (gset Z))
    (log : string) : bool :=
  existsb (λ file_path, contains file_path log) (map_to_list changed_lines).*1.

(** What the loop body decides for one [log]: append it or not. *)
Definition keep_log (changed_lines : gmap string (gset Z)) (log : string)
  : res bool :=
  match log_pattern_match log with
  | Some (file_path, line_num) =>
      file_path ← relative_path file_path;
      line_num ← int line_num;
      Returned (is_changed changed_lines file_path line_num)
  | None => Returned (mentions_changed_file changed_lines log)
  end.

(** The loop over [logs]; [filtered] is the list built so far. *)
Fixpoint filter_loop (changed_lines : gmap string (gset Z))
    (logs filtered : list string) : res (list string) :=
  match logs with
  | [] => Returned filtered
  | log :: logs' =>
      keep ← keep_log changed_lines log;
      filter_loop changed_lines logs'
        (if keep : bool then filtered ++ [log] else filtered)
  end.

Definition filter_logs (logs : list string)
    (changed_lines : gmap string (gset Z)) : res (list string) :=
  if bool_decide (changed_lines = ∅) then Returned []
  else filter_loop changed_lines logs [].

(** ** Printing, exiting and the outside world *)

Inductive stream : Type := Stdout | Stderr.

(** What a run leaves behind: the texts printed, in order, and how the
    computation ended. *)
Record io (A : Type) : Type := IO {
  printed : list (stream * string);
  ended : res A
}.
Arguments IO {A} printed ended.
Arguments printed {A} i.
Arguments ended {A} i.

Definition io_bind {A B} (f : A → io B) (m : io A) : io B :=
  match ended m with
  | Returned a => IO (printed m ++ printed (f a)) (ended (f a))
  | Raised e => IO (printed m) (Raised e)
  end.

#[export] Instance io_ret : MRet io := λ A a, IO [] (Returned a).
#[export] Instance io_mbind : MBind io := @io_bind.

Definition print (out : stream) (text : string) : io unit :=
  IO [(out, text)] (Returned ()).

Definition sys_exit {A} (status : Z) : io A := IO [] (Raised (SystemExit status)).

Definition lift {A} (r : res A) : io A := IO [] r.

(** The result of [subprocess.run(["git", "diff", "--staged"], check=True)]:
    the captured standard output, or the text of the [CalledProcessError]. *)
Inductive git_result : Type :=
| GitOutput (stdout : string)
| CalledProcessError (text : string).

(** What the process reads from outside: the staged diff, the files that
    can be opened, and the value of [output_path] after [expanduser]. *)
Record world : Type := World {
  git_diff_staged : git_result;
  file_contents : string → option string;
  output_path : string
}.

Definition get_changed_lines (w : world) : io (gmap string (gset Z)) :=
  match git_diff_staged w with
  | GitOutput diff_output => lift (changed_lines_of_diff diff_output)
  | CalledProcessError e =>
      print Stderr ("Error getting git diff: " +:+ e);; sys_exit 1
  end.

Definition read_saved_logs (w : world) (log_file : string) : io (list string) :=
  match file_contents w log_file with
  | Some text => mret (splitlines text)
  | None =>
      print Stderr ("Log file " +:+ log_file +:+ " not found.");; sys_exit 1
  end.

Definition main (w : world) : io unit :=
  print Stdout "======== Getting changed lines =============";;
  changed_lines ← get_changed_lines w;
  (if bool_decide (changed_lines = ∅) then
     print Stderr "No staged files or changed lines to process.";; sys_exit 0
   else mret ());;
  logs ← read_saved_logs w (output_path w);
  filtered_logs ← lift (filter_logs logs changed_lines);
  print Stdout "======== Filtered Logs =============";;
  match filtered_logs with
  | _ :: _ => print Stdout (join (String LF EmptyString) filtered_logs)
  | [] => print Stdout "No logs found for changed lines in staged files."
  end.

(** The exit status of the interpreter: 0 after a normal return, the
    argument of [sys.exit], and 1 after any other uncaught exception. *)
Definition exit_status {A} (m : io A) : Z :=
  match ended m with
  | Returned _ => 0
  | Raised (SystemExit status) => status
  | Raised _ => 1
  end.

(** The texts printed to one stream. *)
Definition printed_to (out : stream) {A} (m : io A) : list string :=
  omap (λ '(o, text), match o, out with
                      | Stdout, Stdout | Stderr, Stderr => Some text
                      | _, _ => None
                      end) (printed m).

(** * The vocabulary of the properties *)

(** ** Strings *)

(** [key] occurs in [s]: some text before, [key], some text after. *)
Definition is_substring (key s : string) : Prop :=
  ∃ pre post, s = pre +:+ key +:+ post.

(** [key] is what is left of [s] from the first place where [marker]
    starts: [key] starts with [marker], and [marker] starts nowhere in the
    part that was cut off. *)
Definition from_first (marker s key : string) : Prop :=
  ∃ pre, s = pre +:+ key
         ∧ String.prefix marker key = true
         ∧ ∀ p1 p2, pre = p1 +:+ p2 → p2 ≠ EmptyString →
                    String.prefix marker (p2 +:+ key) = false.

(** All characters of [s] are decimal digits. *)
Fixpoint all_decimal (s : string) : bool :=
  match s with
  | EmptyString => true
  | String c s' => isdecimal c && all_decimal s'
  end.

(** ** The regular expressions, read as languages

    The matchers of [Re] decide step by step, in the order in which the
    backtracking matcher tries.  Here each pattern is written once more as
    the set of texts it accepts, and the matchers are shown to agree. *)

Fixpoint all_space (s : string) : bool :=
  match s with
  | EmptyString => true
  | String c s' => isspace c && all_space s'
  end.

Fixpoint no_LF (s : string) : bool :=
  match s with
  | EmptyString => true
  | String c s' => negb (Ascii.eqb c LF) && no_LF s'
  end.

Definition head_decimal (s : string) : bool :=
  match s with
  | EmptyString => false
  | String c _ => isdecimal c
  end.

(** [\d+] *)
Definition digits (d : string) : Prop :=
  d ≠ EmptyString ∧ all_decimal d = true.

(** [(.* )$] *)
Definition message_end (s : string) : Prop :=
  ∃ msg nl, s = msg +:+ nl ∧ no_LF msg = true
            ∧ (nl = EmptyString ∨ nl = String LF EmptyString).

(** [(?:\d+:)?\s*(.* )$] *)
Definition column_message_lang (s : string) : Prop :=
  ∃ col w t, s = col +:+ w +:+ t
             ∧ (col = EmptyString ∨ ∃ d, digits d ∧ col = d +:+ ":")
             ∧ all_space w = true ∧ message_end t.

(** The whole of [log] read as [^(path):(num):(?:\d+:)?\s*(.* )$]. *)
Definition structured (log path num : string) : Prop :=
  no_LF path = true ∧ digits num
  ∧ ∃ r, log = path +:+ ":" +:+ num +:+ ":" +:+ r ∧ column_message_lang r.

(** A text that starts with [@@ -\d+,\d+ \+(g1),\d+ @@]. *)
Definition hunk_header (line g1 : string) : Prop :=
  ∃ a b d rest,
    line = "@@ -" +:+ a +:+ "," +:+ b +:+ " +" +:+ g1 +:+ "," +:+ d +:+ " @@" +:+ rest
    ∧ digits a ∧ digits b ∧ digits g1 ∧ digits d.

(** ** The log filter *)

(** The decision of the loop body as a plain boolean; a [log] on which the
    body raises is not kept. *)
Definition keeps (changed_lines : gmap string (gset Z)) (log : string) : bool :=
  match keep_log changed_lines log with
  | Returned keep => keep
  | Raised _ => false
  end.

(** The body of the loop raises on no element of [logs]. *)
Definition all_decided (changed_lines : gmap string (gset Z))
    (logs : list string) : Prop :=
  Forall (λ log, ∃ keep, keep_log changed_lines log = Returned keep) logs.

(** A reading of the filter in which the key of a structured line is its
    path as matched, from the first place where [src/] starts: the filter
    returns, and keeps the line exactly when that key is in the changed
    lines and the number is in the key's set. *)
Definition kept_iff_raw_key (changed_lines : gmap string (gset Z))
    (log : string) : Prop :=
  ∀ path num key,
    log_pattern_match log = Some (path, num) →
    from_first "src/" path key →
    (filter_logs [log] changed_lines = Returned [log]
     ∧ ∃ lines, changed_lines !! key = Some lines ∧ digits_value num ∈ lines)
    ∨ (filter_logs [log] changed_lines = Returned []
       ∧ ¬ ∃ lines, changed_lines !! key = Some lines
                    ∧ digits_value num ∈ lines).


(** The reading of the filter in which a line is skipped: the filter
    returns, and [log] is not in what it returns. *)
Definition skipped (changed_lines : gmap string (gset Z))
    (logs : list string) (log : string) : Prop :=
  ∃ out, filter_logs logs changed_lines = Returned out ∧ log ∉ out.

(** ** The diff extractor *)

(** What every turn of the loop keeps true: a true [current_file] is a key
    of [changed_lines], the line counter is not negative, and no recorded
    number is negative. *)
Record scan_inv (st : scan_state) : Prop := ScanInv {
  inv_file_known :
    ∀ f, truthy (current_file st) = Some f → is_Some (changed_lines st !! f);
  inv_counter : 0 ≤ current_line st;
  inv_recorded :
    ∀ f lines n, changed_lines st !! f = Some lines → n ∈ lines → 0 ≤ n
}.

(** ** The new file as the diff shows it

    The reference the extractor is compared with.  It is not taken from the
    source: it numbers the lines of the new version of each file the way
    the unified diff format does.  A hunk header gives the number of the
    first line of the hunk in the new file; an added line and a context
    line each take the next number; a removed line is no line of the new
    file and takes no number. *)

Module Unified.

Inductive line_kind : Type := Added | Context.

(** An optional [,count] of a hunk header. *)
Definition opt_count (s : string) : option string :=
  match lit "," s with
  | Some r => '(_, r) ← digits1 r; Some r
  | None => Some s
  end.

(** The new start [c] of a hunk header [@@ -a,b +c,d @@]; either count
    may be left out. *)
Definition hunk_new_start (line : string) : option Z :=
  r ← lit "@@ -" line;
  '(_, r) ← digits1 r;
  r ← opt_count r;
  r ← lit " +" r;
  '(c, r) ← digits1 r;
  r ← opt_count r;
  _ ← lit " @@" r;
  Some (digits_value c).

Record numbering : Type := Numbering {
  numbered : list (string * Z * line_kind);
  in_file : option string;
  next_line : option Z
}.

Definition number_line (st : numbering) (kind : line_kind) : numbering :=
  match in_file st, next_line st with
  | Some f, Some n =>
      {| numbered := numbered st ++ [(f, n, kind)];
         in_file := in_file st;
         next_line := Some (n + 1) |}
  | _, _ => st
  end.

Definition step (st : numbering) (line : string) : numbering :=
  if startswith line "+++ b/" then
    {| numbered := numbered st;
       in_file := Some (strip (drop_chars 6 line));
       next_line := None |}
  else if startswith line "+++" then
    {| numbered := numbered st; in_file := None; next_line := None |}
  else if startswith line "@@" then
    match hunk_new_start line with
    | Some c =>
        {| numbered := numbered st; in_file := in_file st; next_line := Some c |}
    | None => st
    end
  else if startswith line "+" then number_line st Added
  else if startswith line " " then number_line st Context
  else st.

(** The numbered lines of the new files, in the order of the diff. *)
Definition new_file_lines (diff_output : string)
  : list (string * Z * line_kind) :=
  numbered (foldl step {| numbered := []; in_file := None; next_line := None |}
              (splitlines diff_output)).

End Unified.

(** Every number the extractor records for a file is the number of an
    added line of that file in the new version. *)
Definition records_added_lines (diff_output : string) : Prop :=
  ∀ cl f lines n,
    changed_lines_of_diff diff_output = Returned cl →
    cl !! f = Some lines → n ∈ lines →
    (f, n, Unified.Added) ∈ Unified.new_file_lines diff_output.

(** Every number the extractor records is at least 1. *)
Definition records_positive (diff_output : string) : Prop :=
  ∀ cl f lines n,
    changed_lines_of_diff diff_output = Returned cl →
    cl !! f = Some lines → n ∈ lines → 1 ≤ n.

(** The paths the extractor reads off the file headers of a diff. *)
Definition header_paths (lines : list string) : list string :=
  omap (λ line, if startswith line "+++ b/"
                then Some (strip (drop_chars 6 line)) else None) lines.

(** A line of a hunk body: it starts with a blank, a minus or a plus, and
    not with three pluses. *)
Definition body_line (line : string) : bool :=
  (startswith line " " || startswith line "-" || startswith line "+")
  && negb (startswith line "+++").

(** The numbers of the lines of [body] that start with a plus, when the
    first line of [body] has the number [start] and every line takes one
    number. *)
Fixpoint added_numbers (start : Z) (body : list string) : gset Z :=
  match body with
  | [] => ∅
  | line :: body' =>
      (if startswith line "+" then {[start]} else ∅)
      ∪ added_numbers (start + 1) body'
  end.

(** No character of [s] is a line boundary of [splitlines]. *)
Fixpoint no_linebreak (s : string) : bool :=
  match s with
  | EmptyString => true
  | String c s' => negb (islinebreak c) && no_linebreak s'
  end.

(** ** The texts and dictionaries of the scenarios *)

(** The changed lines of the scenarios: lines 10 and 11 of [src/a.py]. *)
Definition changed_a : gmap string (gset Z) := {[ "src/a.py" := {[10; 11]} ]}.

(** A run of [n] digits. *)
Fixpoint digit_run (n : nat) : string :=
  match n with
  | O => EmptyString
  | S n' => String "9" (digit_run n')
  end.

(** A number of one digit more than [int] converts. *)
Definition long_number : string := digit_run 4301.

(** A structured line of a changed file, with such a number. *)
Definition long_number_log : string := "src/a.py:" +:+ long_number +:+ ": msg".


(** A dictionary with one changed file outside [src/]. *)
Definition changed_app : gmap string (gset Z) := {[ "app/main.py" := {[10]} ]}.

(** A dictionary whose only key is the empty string, as the header line
    [+++ b/] yields it. *)
Definition changed_blank : gmap string (gset Z) := {[ "" := ∅ ]}.

(** Text ends every line with a line feed. *)
Definition unlines (lines : list string) : string :=
  join (String LF EmptyString) (lines ++ [EmptyString]).

(** The staged diff of a change that adds lines 10 and 11 to [src/a.py]. *)
Definition added_lines_diff : string :=
  unlines [ "diff --git a/src/a.py b/src/a.py";
            "index 8a1218a..51a9d16 100644";
            "--- a/src/a.py";
            "+++ b/src/a.py";
            "@@ -9,2 +9,4 @@";
            " nine";
            "+ten";
            "+eleven";
            " twelve" ].

(** The staged diff of a change that replaces the first of two lines. *)
Definition replaced_line_diff : string :=
  unlines [ "diff --git a/src/a.py b/src/a.py";
            "index 3367afd..3e75765 100644";
            "--- a/src/a.py";
            "+++ b/src/a.py";
            "@@ -1,2 +1,2 @@";
            "-old";
            "+new";
            " keep" ].

(** The staged diff of a new file of one line. *)
Definition new_file_diff : string :=
  unlines [ "diff --git a/src/a.py b/src/a.py";
            "new file mode 100644";
            "index 0000000..ce01362";
            "--- /dev/null";
            "+++ b/src/a.py";
            "@@ -0,0 +1 @@";
            "+hello" ].

(** The state of the extractor after the file header and the hunk header
    of [replaced_line_diff]. *)
Definition replaced_line_hunk : scan_state :=
  {| changed_lines := {[ "src/a.py" := ∅ ]};
     current_file := Some "src/a.py";
     current_line := 1 |}.

(** A diff whose hunk header has such a number as its new start. *)
Definition long_start_diff : string :=
  unlines [ "+++ b/src/a.py";
            "@@ -1,2 +" +:+ long_number +:+ ",2 @@";
            "+new" ].

(** The staged diff of a deleted file: its new side is [/dev/null]. *)
Definition deleted_file_diff : string :=
  unlines [ "diff --git a/src/old.py b/src/old.py";
            "deleted file mode 100644";
            "index 3367afd..0000000";
            "--- a/src/old.py";
            "+++ /dev/null";
            "@@ -1,2 +0,0 @@";
            "-first";
            "-second" ].

(** Only a deletion is staged, and no log file has been saved. *)
Definition deletion_staged : world :=
  {| git_diff_staged := GitOutput deleted_file_diff;
     file_contents := λ _, None;
     output_path := "/home/user/working/git_output.log" |}.

(** Git fails, as it does outside a repository. *)
Definition git_fails : world :=
  {| git_diff_staged :=
       CalledProcessError
         "Command '['git', 'diff', '--staged']' returned non-zero exit status 129.";
     file_contents := λ _, None;
     output_path := "/home/user/working/git_output.log" |}.

(** Lines 10 and 11 of [src/a.py] are staged, and no log file has been
    saved. *)
Definition log_missing : world :=
  {| git_diff_staged := GitOutput added_lines_diff;
     file_contents := λ _, None;
     output_path := "/home/user/working/git_output.log" |}.

(** Lines 10 and 11 of [src/a.py] are staged, and the saved log has three
    lines. *)
Definition log_saved : world :=
  {| git_diff_staged := GitOutput added_lines_diff;
     file_contents := λ _,
       Some (unlines [ "src/a.py:10:5: unused import";
                       "src/a.py:99: other";
                       "black: reformatted src/a.py" ]);
     output_path := "/home/user/working/git_output.log" |}.

(** A clean index: [git diff --staged] prints nothing, and no log file has
    been saved. *)
Definition nothing_staged : world :=
  {| git_diff_staged := GitOutput "";
     file_contents := λ _, None;
     output_path := "/home/user/working/git_output.log" |}.

(** * Lemmas *)

(** ** Facts about the string operations *)

(** The lemmas below compute [+:+] on a string that starts with a known
    character. *)
#[local] Arguments String.append !_ _ / : simpl nomatch.

Section string_facts.
Implicit Types s t m key : string.
Implicit Types c : ascii.

Lemma append_nil_r s : s +:+ EmptyString = s.
Proof. induction s as [|c s IH]; simpl; [done | by f_equal]. Qed.

Lemma append_assoc s t u : (s +:+ t) +:+ u = s +:+ (t +:+ u).
Proof. induction s as [|c s IH]; simpl; [done | by f_equal]. Qed.

Lemma append_cons_l c s t : String c s +:+ t = String c (s +:+ t).
Proof. done. Qed.

Lemma append_eq_nil s t : s +:+ t = EmptyString → s = EmptyString ∧ t = EmptyString.
Proof. by destruct s. Qed.

Lemma prefix_spec m s : String.prefix m s = true ↔ ∃ t, s = m +:+ t.
Proof.
  revert s. induction m as [|c m IH]; intros s.
  - destruct s; simpl; naive_solver.
  - destruct s as [|c' s]; simpl.
    + split; [done | by intros [t ?]].
    + destruct (ascii_dec c c') as [->|Hne].
      * rewrite IH. split; intros [t Ht]; exists t; congruence.
      * split; [done | intros [t Ht]; congruence].
Qed.

Lemma prefix_nil_r m : String.prefix m EmptyString = true → m = EmptyString.
Proof. by destruct m. Qed.

Lemma contains_cons key c s :
  contains key (String c s) = String.prefix key (String c s) || contains key s.
Proof. done. Qed.

Lemma contains_spec key s : contains key s = true ↔ is_substring key s.
Proof.
  unfold is_substring. induction s as [|c s IH].
  - simpl. rewrite orb_false_r. split.
    + intros ->%prefix_nil_r. by exists EmptyString, EmptyString.
    + intros (pre & post & H). symmetry in H.
      apply append_eq_nil in H as [_ [-> _]%append_eq_nil]. done.
  - rewrite contains_cons, orb_true_iff, IH, prefix_spec. split.
    + intros [[t Ht] | (pre & post & Ht)].
      * by exists EmptyString, t.
      * exists (String c pre), post. simpl. by rewrite Ht.
    + intros (pre & post & Ht). destruct pre as [|c' pre]; simpl in Ht.
      * left. by exists post.
      * right. exists pre, post. congruence.
Qed.

Lemma find_cons m c s :
  find m (String c s) =
  if String.prefix m (String c s) then Some O else S <$> find m s.
Proof. done. Qed.

Lemma find_nil m :
  find m EmptyString = if String.prefix m EmptyString then Some O else None.
Proof. done. Qed.

Lemma find_None m s : find m s = None ↔ contains m s = false.
Proof.
  induction s as [|c s IH].
  - rewrite find_nil. unfold contains.
    destruct (String.prefix m EmptyString); split; done.
  - rewrite find_cons, contains_cons.
    destruct (String.prefix m (String c s)); [split; done|].
    rewrite orb_false_l, <- IH. destruct (find m s); split; done.
Qed.

Lemma find_from_first m s i :
  find m s = Some i → from_first m s (drop_chars i s).
Proof.
  revert i. induction s as [|c s IH]; intros i.
  - rewrite find_nil. destruct (String.prefix m EmptyString) eqn:Hp; [|done].
    intros [= <-]. exists EmptyString. split_and!; [done..|].
    intros p1 p2 H ?. symmetry in H. by apply append_eq_nil in H as [_ ?].
  - rewrite find_cons. destruct (String.prefix m (String c s)) eqn:Hp.
    + intros [= <-]. exists EmptyString. split_and!; [done..|].
      intros p1 p2 H ?. symmetry in H. by apply append_eq_nil in H as [_ ?].
    + destruct (find m s) as [j|] eqn:Hj; [|done].
      intros [= <-]. destruct (IH j eq_refl) as (pre & Hs & Hk & Hfirst).
      exists (String c pre). split_and!.
      * simpl. by rewrite <- Hs.
      * done.
      * intros p1 p2 Hsplit Hne. destruct p1 as [|c1 p1]; simpl in Hsplit.
        -- subst p2. change (drop_chars (S j) (String c s)) with (drop_chars j s).
           by rewrite append_cons_l, <- Hs.
        -- injection Hsplit as -> ->. by apply (Hfirst p1).
Qed.

Lemma lstrip_suffix s : ∃ w, s = w +:+ lstrip s.
Proof.
  induction s as [|c s [w IH]]; simpl; [by exists EmptyString|].
  destruct (isspace c).
  - exists (String c w). simpl. by rewrite <- IH.
  - by exists EmptyString.
Qed.

Lemma lstrip_head s c t : lstrip s = String c t → isspace c = false.
Proof.
  induction s as [|c' s IH]; simpl; [done|].
  destruct (isspace c') eqn:E; [done | congruence].
Qed.

Lemma rstrip_prefix s : ∃ w, s = rstrip s +:+ w.
Proof.
  induction s as [|c s [w IH]]; simpl; [by exists EmptyString|].
  destruct (rstrip s) as [|c' r] eqn:Hr.
  - destruct (isspace c).
    + by exists (String c s).
    + exists w. simpl. by rewrite IH at 1.
  - exists w. simpl. by rewrite IH at 1.
Qed.

Lemma rstrip_append s t :
  rstrip t ≠ EmptyString → rstrip (s +:+ t) = s +:+ rstrip t.
Proof.
  intros Ht. induction s as [|c s IH]; simpl; [done|].
  rewrite IH. destruct (s +:+ rstrip t) eqn:E; [|done].
  by apply append_eq_nil in E as [_ ?].
Qed.

Lemma rstrip_append_blank s t :
  rstrip t = EmptyString → rstrip (s +:+ t) = rstrip s.
Proof.
  intros Ht. induction s as [|c s IH]; simpl; [done|]. by rewrite IH.
Qed.

(** A marker that neither starts nor ends with white space survives
    [strip], and [strip] invents no occurrence of it. *)
Lemma contains_strip m s :
  m ≠ EmptyString → lstrip m = m → rstrip m = m →
  contains m (strip s) = contains m s.
Proof.
  intros Hm Hl Hr. apply eq_true_iff_eq. rewrite !contains_spec. unfold strip.
  split.
  - intros (pre & post & H).
    destruct (rstrip_prefix (lstrip s)) as [w2 H2].
    destruct (lstrip_suffix s) as [w1 H1].
    exists (w1 +:+ pre), (post +:+ w2).
    rewrite H1, H2, H at 1. by rewrite !append_assoc.
  - intros (pre & post & H).
    assert (∃ pre', lstrip s = pre' +:+ m +:+ post) as [pre' H'].
    { clear Hr. subst s. induction pre as [|c pre IH]; simpl.
      - exists EmptyString. destruct m as [|c m]; [done|].
        apply lstrip_head in Hl as Hc. simpl. by rewrite Hc.
      - destruct (isspace c); [done|]. by exists (String c pre). }
    rewrite H'. exists pre', (rstrip post).
    assert (rstrip (m +:+ post) = m +:+ rstrip post) as Hmp.
    { destruct (rstrip post) as [|c r] eqn:E.
      - by rewrite append_nil_r, rstrip_append_blank.
      - rewrite <- E. apply rstrip_append. by rewrite E. }
    rewrite rstrip_append; rewrite Hmp; [done|].
    by destruct m.
Qed.

End string_facts.

Section string_facts_unique.
Implicit Types s t m key : string.

Lemma append_eq_append s1 t1 s2 t2 :
  s1 +:+ t1 = s2 +:+ t2 →
  (∃ e, s2 = s1 +:+ e ∧ t1 = e +:+ t2) ∨ (∃ e, s1 = s2 +:+ e ∧ t2 = e +:+ t1).
Proof.
  revert s2. induction s1 as [|c s1 IH]; intros s2 H.
  - left. by exists s2.
  - destruct s2 as [|c2 s2].
    + right. by exists (String c s1).
    + simpl in H. injection H as <- H.
      destruct (IH _ H) as [(e & -> & ->) | (e & -> & ->)]; [left | right];
        by exists e.
Qed.

Lemma from_first_unique m s key1 key2 :
  from_first m s key1 → from_first m s key2 → key1 = key2.
Proof.
  intros (pre1 & H1 & Hm1 & Hf1) (pre2 & H2 & Hm2 & Hf2).
  rewrite H1 in H2.
  destruct (append_eq_append _ _ _ _ H2) as [(e & Hp & Hk) | (e & Hp & Hk)];
    (destruct e as [|c e]; [done|]).
  - rewrite Hk, (Hf2 pre1 (String c e)) in Hm1; done.
  - rewrite Hk, (Hf1 pre2 (String c e)) in Hm2; done.
Qed.


Lemma append_self_r s t : s = s +:+ t → t = EmptyString.
Proof.
  induction s as [|c s IH]; simpl; [done|]. intros [= H]. by apply IH.
Qed.

Lemma append_inj_l s t1 t2 : s +:+ t1 = s +:+ t2 → t1 = t2.
Proof. induction s as [|c s IH]; simpl; [done|]. intros [= H]. by apply IH. Qed.

(** A string that [rstrip] leaves alone stays so after [lstrip]. *)
Lemma strip_rstrip_fixed s : rstrip s = s → strip s = lstrip s.
Proof.
  intros Hs. unfold strip. destruct (lstrip_suffix s) as [w Hw].
  assert (rstrip (w +:+ lstrip s) = w +:+ lstrip s) as Hs' by by rewrite <- Hw.
  destruct (rstrip (lstrip s)) as [|c r] eqn:E.
  - rewrite rstrip_append_blank in Hs' by done.
    destruct (rstrip_prefix w) as [w' Hw']. rewrite Hw' in Hs' at 2.
    rewrite append_assoc in Hs'. apply append_self_r in Hs'.
    by apply append_eq_nil in Hs' as [_ ->].
  - rewrite <- E. rewrite rstrip_append in Hs' by (by rewrite E).
    by apply append_inj_l in Hs'.
Qed.

Lemma from_first_cons m c s key :
  String.prefix m (String c s) = false →
  from_first m s key → from_first m (String c s) key.
Proof.
  intros Hc (pre & Hs & Hk & Hfirst). exists (String c pre). split_and!.
  - simpl. by rewrite <- Hs.
  - done.
  - intros p1 p2 Hsplit Hne. destruct p1 as [|c1 p1]; simpl in Hsplit.
    + subst p2. by rewrite append_cons_l, <- Hs.
    + injection Hsplit as -> ->. by apply (Hfirst p1).
Qed.

(** The white space that [lstrip] removes lies before every occurrence of
    a marker that starts with another character. *)
Lemma from_first_lstrip m s key :
  m ≠ EmptyString → lstrip m = m →
  from_first m (lstrip s) key → from_first m s key.
Proof.
  intros Hm Hl. induction s as [|c s IH]; simpl; [done|].
  destruct (isspace c) eqn:Hc; [|done].
  intros Hk. apply from_first_cons; [|by apply IH].
  destruct m as [|c' m]; [done|]. apply lstrip_head in Hl. simpl.
  destruct (ascii_dec c' c); [congruence | done].
Qed.

End string_facts_unique.

(** ** The matchers agree with the languages *)

Section regex_facts.
Implicit Types s t d r l : string.
Implicit Types c : ascii.

Lemma drop_chars_append l t : drop_chars (String.length l) (l +:+ t) = t.
Proof. induction l as [|c l IH]; simpl; [by destruct t | done]. Qed.

Lemma lit_spec l s r : lit l s = Some r ↔ s = l +:+ r.
Proof.
  unfold lit. destruct (String.prefix l s) eqn:E.
  - apply prefix_spec in E as [t ->]. rewrite drop_chars_append. split.
    + by intros [= ->].
    + by intros ->%append_inj_l.
  - split; [done|]. intros ->.
    assert (String.prefix l (l +:+ r) = true) as H by (apply prefix_spec; eauto).
    congruence.
Qed.

Lemma lit_append l r : lit l (l +:+ r) = Some r.
Proof. by apply lit_spec. Qed.

Lemma span_digits_cons c s :
  span_digits (String c s) =
  if isdecimal c then let '(d, r) := span_digits s in (String c d, r)
  else (EmptyString, String c s).
Proof. done. Qed.

Lemma span_digits_spec s d r :
  span_digits s = (d, r)
  ↔ s = d +:+ r ∧ all_decimal d = true ∧ head_decimal r = false.
Proof.
  revert d r. induction s as [|c s IH]; intros d r.
  - simpl. split.
    + by intros [= <- <-].
    + intros (H & _ & _). symmetry in H. by apply append_eq_nil in H as [-> ->].
  - rewrite span_digits_cons. destruct (isdecimal c) eqn:Hc.
    + destruct (span_digits s) as [d' r'] eqn:E.
      destruct (proj1 (IH d' r') eq_refl) as (-> & Hd' & Hr'). split.
      * intros [= <- <-]. simpl. by rewrite Hc.
      * intros (H & Hd & Hr). destruct d as [|c1 d]; simpl in H.
        -- subst r. simpl in Hr. congruence.
        -- injection H as <- H. simpl in Hd. rewrite Hc in Hd. simpl in Hd.
           assert ((d', r') = (d, r)) as [= -> ->] by (by apply IH). done.
    + split.
      * intros [= <- <-]. simpl. by rewrite Hc.
      * intros (H & Hd & Hr). destruct d as [|c1 d]; simpl in H.
        -- by subst r.
        -- injection H as <- H. simpl in Hd. by rewrite Hc in Hd.
Qed.

Lemma digits1_spec s d r :
  digits1 s = Some (d, r) ↔ s = d +:+ r ∧ digits d ∧ head_decimal r = false.
Proof.
  unfold digits1, digits. destruct (span_digits s) as [d' r'] eqn:E.
  apply span_digits_spec in E as (-> & Hd' & Hr'). split.
  - destruct d'; [done|]. by intros [= <- <-].
  - intros (H & [Hne Hd] & Hr).
    assert (span_digits (d' +:+ r') = (d, r)) as E1 by (by apply span_digits_spec).
    assert (span_digits (d' +:+ r') = (d', r')) as E2 by (by apply span_digits_spec).
    rewrite E1 in E2. injection E2 as <- <-. by destruct d.
Qed.

Lemma digits1_append d r :
  digits d → head_decimal r = false → digits1 (d +:+ r) = Some (d, r).
Proof. intros. by apply digits1_spec. Qed.

Lemma dot_star_end_cons c s :
  dot_star_end (String c s) =
  if Ascii.eqb c LF then match s with EmptyString => true | _ => false end
  else dot_star_end s.
Proof. done. Qed.

Lemma dot_star_end_spec s : dot_star_end s = true ↔ message_end s.
Proof.
  unfold message_end. induction s as [|c s IH].
  - split; [|done]. intros _. exists EmptyString, EmptyString. by split_and!; [..|left].
  - rewrite dot_star_end_cons. destruct (Ascii.eqb c LF) eqn:Hc.
    + apply Ascii.eqb_eq in Hc as ->. split.
      * destruct s; [|done]. intros _.
        exists EmptyString, (String LF EmptyString). by split_and!; [..|right].
      * intros (msg & nl & H & Hmsg & Hnl). destruct msg as [|c msg].
        -- simpl in H. subst nl. by destruct Hnl as [|[= ->]].
        -- simpl in H. injection H as <- _. by simpl in Hmsg.
    + rewrite IH. split.
      * intros (msg & nl & -> & Hmsg & Hnl). exists (String c msg), nl.
        split_and!; [done | | done]. simpl. by rewrite Hc.
      * intros (msg & nl & H & Hmsg & Hnl). destruct msg as [|c' msg].
        -- simpl in H. subst nl. destruct Hnl as [|[= -> _]]; [done|].
           by rewrite Ascii.eqb_refl in Hc.
        -- simpl in H. injection H as <- ->. simpl in Hmsg.
           apply andb_true_iff in Hmsg as [_ Hmsg]. by exists msg, nl.
Qed.

Lemma spaces_message_cons c s :
  spaces_message (String c s) =
  (isspace c && spaces_message s) || dot_star_end (String c s).
Proof. done. Qed.

Lemma spaces_message_spec s :
  spaces_message s = true
  ↔ ∃ w t, s = w +:+ t ∧ all_space w = true ∧ message_end t.
Proof.
  induction s as [|c s IH].
  - split; [|done]. intros _. exists EmptyString, EmptyString.
    split_and!; [done..|]. by apply dot_star_end_spec.
  - rewrite spaces_message_cons, orb_true_iff, andb_true_iff, IH. split.
    + intros [[Hc (w & t & -> & Hw & Ht)] | H].
      * exists (String c w), t. split_and!; [done | | done]. simpl. by rewrite Hc.
      * exists EmptyString, (String c s). split_and!; [done..|].
        by apply dot_star_end_spec.
    + intros (w & t & H & Hw & Ht). destruct w as [|c' w]; simpl in H.
      * right. subst t. by apply dot_star_end_spec.
      * left. injection H as <- ->. simpl in Hw.
        apply andb_true_iff in Hw as [Hc Hw]. split; [done|]. by exists w, t.
Qed.

End regex_facts.

Section regex_agreement.
Implicit Types s t d r l q p : string.
Implicit Types c : ascii.

(** Runs a bind of the option monad whose first part is a known [Some]. *)
Ltac bind_step := cbn [mbind option_bind].

Lemma length_append s t :
  String.length (s +:+ t) = (String.length s + String.length t)%nat.
Proof. induction s as [|c s IH]; simpl; [done | by rewrite IH]. Qed.

Lemma no_LF_append s t : no_LF (s +:+ t) = no_LF s && no_LF t.
Proof.
  induction s as [|c s IH]; simpl; [done|]. by rewrite IH, andb_assoc.
Qed.

(** The optional column [(?:\d+:)]. *)
Lemma column_spec s r :
  digits1 s ≫= (λ '(_, r), lit ":" r) = Some r
  ↔ ∃ d, digits d ∧ s = d +:+ ":" +:+ r.
Proof.
  split.
  - intros ([d r0] & (-> & Hd & _)%digits1_spec & ->%lit_spec)%bind_Some.
    by exists d.
  - intros (d & Hd & ->). apply bind_Some. exists (d, ":" +:+ r). split.
    + by apply digits1_append.
    + apply lit_append.
Qed.

Lemma column_message_spec s : column_message s = true ↔ column_message_lang s.
Proof.
  unfold column_message, column_message_lang. split.
  - destruct (digits1 s ≫= _) as [r|] eqn:E.
    + apply column_spec in E as (d & Hd & ->).
      intros [(w & t & -> & Hw & Ht)%spaces_message_spec
             | (w & t & H & Hw & Ht)%spaces_message_spec]%orb_true_iff.
      * exists (d +:+ ":"), w, t. rewrite append_assoc. split_and!; eauto.
      * exists EmptyString, w, t. split_and!; eauto.
    + intros (w & t & H & Hw & Ht)%spaces_message_spec.
      exists EmptyString, w, t. split_and!; eauto.
  - intros (col & w & t & -> & [-> | (d & Hd & ->)] & Hw & Ht).
    + assert (spaces_message (w +:+ t) = true) as H
        by (apply spaces_message_spec; eauto).
      simpl. rewrite H. destruct (digits1 (w +:+ t) ≫= _); [|done].
      apply orb_true_r.
    + assert (digits1 ((d +:+ ":") +:+ w +:+ t) ≫= (λ '(_, r), lit ":" r)
              = Some (w +:+ t)) as ->.
      { apply column_spec. exists d. by rewrite append_assoc. }
      assert (spaces_message (w +:+ t) = true) as ->
        by (apply spaces_message_spec; eauto).
      done.
Qed.

Lemma after_path_spec s num :
  after_path s = Some num
  ↔ digits num ∧ ∃ r, s = ":" +:+ num +:+ ":" +:+ r ∧ column_message_lang r.
Proof.
  unfold after_path. split.
  - intros (r1 & ->%lit_spec & ([g2 r2] & (-> & Hd & _)%digits1_spec
            & (r3 & ->%lit_spec & H)%bind_Some)%bind_Some)%bind_Some.
    destruct (column_message r3) eqn:E; [|done]. injection H as <-.
    split; [done|]. exists r3. split; [done|]. by apply column_message_spec.
  - intros (Hd & r & -> & Hr%column_message_spec).
    rewrite lit_append. bind_step. rewrite digits1_append by done. bind_step.
    rewrite lit_append. bind_step. by rewrite Hr.
Qed.

Lemma lazy_path_cons pre c s :
  lazy_path pre (String c s) =
  match after_path (String c s) with
  | Some g2 => Some (pre, g2)
  | None => if Ascii.eqb c LF then None
            else lazy_path (pre +:+ String c EmptyString) s
  end.
Proof. done. Qed.

Lemma after_path_nil : after_path EmptyString = None.
Proof. done. Qed.

(** The lazy group stops at the first place from which the rest of the
    pattern matches. *)
Lemma lazy_path_Some pre s p num :
  lazy_path pre s = Some (p, num)
  ↔ ∃ q t, p = pre +:+ q ∧ s = q +:+ t ∧ no_LF q = true
           ∧ after_path t = Some num
           ∧ ∀ q1 q2, q = q1 +:+ q2 → q2 ≠ EmptyString →
                      after_path (q2 +:+ t) = None.
Proof.
  revert pre. induction s as [|c s IH]; intros pre.
  - split; [done|]. intros (q & t & _ & H & _ & Ht & _). symmetry in H.
    apply append_eq_nil in H as [_ ->]. by rewrite after_path_nil in Ht.
  - rewrite lazy_path_cons. destruct (after_path (String c s)) as [g|] eqn:E.
    + split.
      * intros [= <- <-]. exists EmptyString, (String c s).
        rewrite append_nil_r. split_and!; [done..|].
        intros q1 q2 H ?. symmetry in H. by apply append_eq_nil in H as [_ ?].
      * intros (q & t & -> & H & _ & Ht & Hmin). destruct q as [|c' q].
        -- simpl in H. subst t. rewrite append_nil_r. congruence.
        -- rewrite H, (Hmin EmptyString (String c' q)) in E; done.
    + destruct (Ascii.eqb c LF) eqn:Hc.
      * split; [done|]. intros (q & t & _ & H & Hq & Ht & _).
        destruct q as [|c' q]; simpl in H.
        -- subst t. congruence.
        -- injection H as <- _. simpl in Hq. by rewrite Hc in Hq.
      * rewrite IH. split.
        -- intros (q & t & -> & -> & Hq & Ht & Hmin). exists (String c q), t.
           split_and!; [by rewrite append_assoc | done | | done |].
           ++ simpl. by rewrite Hc.
           ++ intros q1 q2 H Hne. destruct q1 as [|c1 q1]; simpl in H.
              ** by subst q2.
              ** injection H as _ ->. by apply (Hmin q1).
        -- intros (q & t & -> & H & Hq & Ht & Hmin).
           destruct q as [|c' q]; simpl in H.
           ++ subst t. congruence.
           ++ injection H as <- ->. exists q, t. simpl in Hq.
              apply andb_true_iff in Hq as [_ Hq].
              split_and!; [by rewrite append_assoc | done.. |].
              intros q1 q2 -> Hne. by apply (Hmin (String c q1)).
Qed.

Lemma lazy_path_None pre s :
  lazy_path pre s = None
  ↔ ∀ q t, s = q +:+ t → no_LF q = true → after_path t = None.
Proof.
  revert pre. induction s as [|c s IH]; intros pre.
  - split; [|done]. intros _ q t H _. symmetry in H.
    by apply append_eq_nil in H as [_ ->].
  - rewrite lazy_path_cons. destruct (after_path (String c s)) as [g|] eqn:E.
    + split; [done|]. intros H.
      by rewrite (H EmptyString (String c s)) in E.
    + destruct (Ascii.eqb c LF) eqn:Hc.
      * split; [|done]. intros _ q t H Hq. destruct q as [|c' q]; simpl in H.
        -- by subst t.
        -- injection H as <- _. simpl in Hq. by rewrite Hc in Hq.
      * rewrite IH. split.
        -- intros Hall q t H Hq. destruct q as [|c' q]; simpl in H.
           ++ by subst t.
           ++ injection H as <- ->. simpl in Hq.
              apply andb_true_iff in Hq as [_ Hq]. by apply (Hall q).
        -- intros Hall q t -> Hq. apply (Hall (String c q)); [done|].
           simpl. by rewrite Hc.
Qed.

Lemma structured_after_path log path num :
  structured log path num
  ↔ no_LF path = true ∧ ∃ t, log = path +:+ t ∧ after_path t = Some num.
Proof.
  unfold structured. split.
  - intros (Hp & Hd & r & -> & Hr). split; [done|].
    eexists. split; [done|]. apply after_path_spec. eauto.
  - intros (Hp & t & -> & (Hd & r & -> & Hr)%after_path_spec). eauto.
Qed.

(** [log_pattern.match] finds a reading of [log] as a structured line
    exactly when there is one, and then it is the reading with the
    shortest path. *)
Lemma log_pattern_match_Some log path num :
  log_pattern_match log = Some (path, num)
  ↔ structured log path num
    ∧ ∀ path' num', structured log path' num' →
                    (String.length path ≤ String.length path')%nat.
Proof.
  unfold log_pattern_match. rewrite lazy_path_Some. split.
  - intros (q & t & -> & -> & Hq & Ht & Hmin). simpl. split.
    + apply structured_after_path. eauto.
    + intros path' num' (Hp' & t' & H & Ht')%structured_after_path.
      destruct (append_eq_append _ _ _ _ H) as [(e & -> & ->) | (e & -> & ->)].
      * rewrite length_append. lia.
      * destruct e as [|c e]; [by rewrite append_nil_r|].
        rewrite (Hmin path' (String c e)) in Ht'; done.
  - intros [(Hp & t & -> & Ht)%structured_after_path Hmin].
    exists path, t. split_and!; [done..|].
    intros q1 q2 -> Hne. destruct (after_path (q2 +:+ t)) as [num'|] eqn:E; [|done].
    rewrite no_LF_append in Hp. apply andb_true_iff in Hp as [Hq1 _].
    assert (structured ((q1 +:+ q2) +:+ t) q1 num') as Hs.
    { apply structured_after_path. split; [done|]. exists (q2 +:+ t).
      by rewrite append_assoc. }
    apply Hmin in Hs. rewrite length_append in Hs.
    destruct q2; [done|]. simpl in Hs. lia.
Qed.

Lemma log_pattern_match_None log :
  log_pattern_match log = None ↔ ∀ path num, ¬ structured log path num.
Proof.
  unfold log_pattern_match. rewrite lazy_path_None. split.
  - intros Hall path num (Hp & t & -> & Ht)%structured_after_path.
    by rewrite (Hall path t) in Ht.
  - intros Hall q t -> Hq. destruct (after_path t) as [num|] eqn:E; [|done].
    destruct (Hall q num). apply structured_after_path. eauto.
Qed.

(** [re.match] with the hunk pattern returns the third number of a text
    that starts with a header with both counts, and nothing otherwise. *)
Lemma hunk_header_match_spec line g1 :
  hunk_header_match line = Some g1 ↔ hunk_header line g1.
Proof.
  unfold hunk_header_match, hunk_header. split.
  - intros (r1 & ->%lit_spec & ([a r2] & (-> & Ha & _)%digits1_spec
      & (r3 & ->%lit_spec & ([b r4] & (-> & Hb & _)%digits1_spec
      & (r5 & ->%lit_spec & ([g r6] & (-> & Hg & _)%digits1_spec
      & (r7 & ->%lit_spec & ([d r8] & (-> & Hd & _)%digits1_spec
      & (r9 & ->%lit_spec & [= <-])%bind_Some)%bind_Some)%bind_Some)%bind_Some
        )%bind_Some)%bind_Some)%bind_Some)%bind_Some)%bind_Some.
    exists a, b, d, r9. done.
  - intros (a & b & d & rest & -> & Ha & Hb & Hg & Hd).
    rewrite lit_append. bind_step.
    do 4 (rewrite digits1_append by done; bind_step; rewrite lit_append;
          bind_step).
    done.
Qed.

End regex_agreement.

(** ** Facts about the log filter *)

Section filter_facts.
Implicit Types cl : gmap string (gset Z).
Implicit Types logs out : list string.
Implicit Types log path num key : string.

Lemma is_changed_spec cl key n :
  is_changed cl key n = true ↔ ∃ lines, cl !! key = Some lines ∧ n ∈ lines.
Proof.
  unfold is_changed. destruct (cl !! key) as [lines|].
  - rewrite bool_decide_eq_true. split.
    + intros Hn. by exists lines.
    + by intros (lines' & [= <-] & Hn).
  - split; [done | by intros (lines & ? & _)].
Qed.

Lemma mentions_changed_file_spec cl log :
  mentions_changed_file cl log = true
  ↔ ∃ key, key ∈ dom cl ∧ is_substring key log.
Proof.
  unfold mentions_changed_file. rewrite existsb_exists. split.
  - intros (key & Hin & Hc). exists key. split; [|by apply contains_spec].
    apply list_elem_of_In, list_elem_of_fmap in Hin as ([k v] & -> & Hkv).
    apply elem_of_map_to_list in Hkv. apply elem_of_dom. by exists v.
  - intros (key & [v Hv]%elem_of_dom & Hc). exists key.
    split; [|by apply contains_spec].
    apply list_elem_of_In, list_elem_of_fmap. exists (key, v).
    split; [done|]. by apply elem_of_map_to_list.
Qed.

Lemma relative_path_marked path :
  contains "src/" path = true →
  ∃ key, relative_path path = Returned key ∧ from_first "src/" (strip path) key.
Proof.
  intros Hc. unfold relative_path.
  destruct (find "src/" (strip path)) as [i|] eqn:Hf.
  - eexists. split; [done|]. by apply find_from_first.
  - apply find_None in Hf. rewrite contains_strip in Hf by done. congruence.
Qed.

Lemma relative_path_unmarked path :
  contains "src/" path = false → relative_path path = Raised ValueError.
Proof.
  intros Hc. unfold relative_path.
  rewrite <- (contains_strip "src/") in Hc by done.
  apply find_None in Hc. by rewrite Hc.
Qed.


Lemma int_Returned num n :
  int num = Returned n
  ↔ (String.length num ≤ int_max_str_digits)%nat ∧ n = digits_value num.
Proof.
  unfold int. destruct (Nat.ltb_spec int_max_str_digits (String.length num)).
  - split; [done | lia].
  - split; [intros [= <-]; by split | by intros [_ ->]].
Qed.

Lemma int_Raised num e :
  int num = Raised e
  ↔ (int_max_str_digits < String.length num)%nat ∧ e = ValueError.
Proof.
  unfold int. destruct (Nat.ltb_spec int_max_str_digits (String.length num)).
  - split; [intros [= <-]; by split | by intros [_ ->]].
  - split; [done | lia].
Qed.

Lemma keep_log_structured cl log path num key n :
  log_pattern_match log = Some (path, num) →
  relative_path path = Returned key →
  int num = Returned n →
  keep_log cl log = Returned (is_changed cl key n).
Proof. intros Hm Hp Hn. unfold keep_log. by rewrite Hm, Hp, Hn. Qed.

Lemma keep_log_long_number cl log path num key :
  log_pattern_match log = Some (path, num) →
  relative_path path = Returned key →
  (int_max_str_digits < String.length num)%nat →
  keep_log cl log = Raised ValueError.
Proof.
  intros Hm Hp Hn. unfold keep_log. rewrite Hm, Hp.
  by rewrite (proj2 (int_Raised num ValueError)).
Qed.

Lemma keep_log_unmarked cl log path num :
  log_pattern_match log = Some (path, num) →
  contains "src/" path = false →
  keep_log cl log = Raised ValueError.
Proof.
  intros Hm Hc. unfold keep_log. by rewrite Hm, relative_path_unmarked.
Qed.

Lemma keep_log_free cl log :
  log_pattern_match log = None →
  keep_log cl log = Returned (mentions_changed_file cl log).
Proof. intros Hm. unfold keep_log. by rewrite Hm. Qed.

(** The only exception the loop body can raise. *)
Lemma keep_log_raises cl log e : keep_log cl log = Raised e → e = ValueError.
Proof.
  unfold keep_log, relative_path.
  destruct (log_pattern_match log) as [[path num]|]; [|done].
  destruct (find "src/" (strip path)); [|simpl; congruence].
  destruct (int num) as [v|e'] eqn:E; [done|].
  apply int_Raised in E as [_ ->]. simpl. congruence.
Qed.

Lemma keeps_empty log : keeps ∅ log = false.
Proof.
  unfold keeps, keep_log.
  destruct (log_pattern_match log) as [[path num]|]; [|done].
  destruct (relative_path path); [|done]. by destruct (int num).
Qed.

Lemma filter_loop_cons cl log logs filtered :
  filter_loop cl (log :: logs) filtered =
  keep_log cl log ≫= λ keep : bool,
    filter_loop cl logs (if keep then filtered ++ [log] else filtered).
Proof. done. Qed.

Lemma filter_keeps_cons cl log logs :
  filter (keeps cl) (log :: logs) =
  if keeps cl log then log :: filter (keeps cl) logs else filter (keeps cl) logs.
Proof. rewrite filter_cons. case_decide; by destruct (keeps cl log). Qed.

Lemma filter_loop_Returned cl logs filtered out :
  filter_loop cl logs filtered = Returned out
  ↔ all_decided cl logs ∧ out = filtered ++ filter (keeps cl) logs.
Proof.
  unfold all_decided. revert filtered.
  induction logs as [|log logs IH]; intros filtered.
  - simpl. rewrite app_nil_r. split; [intros [= ->]; by split | by intros [_ ->]].
  - rewrite filter_loop_cons, Forall_cons, filter_keeps_cons. unfold keeps at 1.
    destruct (keep_log cl log) as [keep|e]; simpl.
    + rewrite IH. destruct keep; simpl.
      * rewrite <- app_assoc. simpl. split.
        -- intros [Hall ->]. split; [split; [by exists true | done] | done].
        -- by intros [[_ Hall] ->].
      * split.
        -- intros [Hall ->]. split; [split; [by exists false | done] | done].
        -- by intros [[_ Hall] ->].
    + split; [done | by intros [[[keep ?] _] _]].
Qed.

Lemma filter_loop_Raised cl logs filtered log :
  log ∈ logs → keep_log cl log = Raised ValueError →
  filter_loop cl logs filtered = Raised ValueError.
Proof.
  intros Hin Hlog. revert filtered.
  induction logs as [|log' logs IH]; intros filtered.
  - by apply elem_of_nil in Hin.
  - rewrite filter_loop_cons.
    destruct (keep_log cl log') as [keep|e] eqn:E; simpl.
    + apply elem_of_cons in Hin as [->|Hin]; [congruence | by apply IH].
    + by rewrite (keep_log_raises _ _ _ E).
Qed.

Lemma filter_logs_empty_changed logs : filter_logs logs ∅ = Returned [].
Proof. unfold filter_logs. by rewrite bool_decide_eq_true_2. Qed.

Lemma filter_logs_nonempty_changed cl logs :
  cl ≠ ∅ → filter_logs logs cl = filter_loop cl logs [].
Proof. intros H. unfold filter_logs. by rewrite bool_decide_eq_false_2. Qed.

(** Whenever the filter returns, it returns the kept lines of [logs]. *)
Lemma filter_logs_Returned cl logs out :
  filter_logs logs cl = Returned out → out = filter (keeps cl) logs.
Proof.
  destruct (decide (cl = ∅)) as [->|Hne].
  - rewrite filter_logs_empty_changed. intros [= <-].
    induction logs as [|log logs IH]; [done|].
    by rewrite filter_keeps_cons, keeps_empty.
  - rewrite filter_logs_nonempty_changed by done.
    by intros [_ ->]%filter_loop_Returned.
Qed.

(** The filter returns as soon as the loop body raises on no line. *)
Lemma filter_logs_decided cl logs :
  all_decided cl logs → filter_logs logs cl = Returned (filter (keeps cl) logs).
Proof.
  intros Hall. destruct (decide (cl = ∅)) as [->|Hne].
  - rewrite filter_logs_empty_changed. f_equal.
    clear Hall. induction logs as [|log logs IH]; [done|].
    by rewrite filter_keeps_cons, keeps_empty.
  - rewrite filter_logs_nonempty_changed by done.
    by apply filter_loop_Returned.
Qed.

Lemma filter_logs_elem_of cl logs out log :
  filter_logs logs cl = Returned out →
  log ∈ out ↔ log ∈ logs ∧ keeps cl log = true.
Proof.
  intros ->%filter_logs_Returned. rewrite list_elem_of_filter.
  rewrite Is_true_true. split; intros [? ?]; by split.
Qed.

Lemma filter_logs_single cl log keep :
  keep_log cl log = Returned keep →
  filter_logs [log] cl = Returned (if keep then [log] else []).
Proof.
  intros Hk. rewrite filter_logs_decided.
  - rewrite filter_keeps_cons, filter_nil. unfold keeps. rewrite Hk.
    by destruct keep.
  - apply Forall_cons. split; [by exists keep | by apply Forall_nil].
Qed.

End filter_facts.

(** ** Facts about the diff extractor *)

(** Reads the fields of a state that is written out. *)
Ltac fields := cbn [changed_lines current_file current_line] in *.

Section extractor_facts.
Implicit Types st : scan_state.
Implicit Types line s d r : string.

Lemma span_digits_decimal s d r :
  span_digits s = (d, r) → all_decimal d = true.
Proof.
  revert d r. induction s as [|c s IH]; intros d r; simpl.
  - by intros [= <- <-].
  - destruct (isdecimal c) eqn:Hc; [|by intros [= <- <-]].
    destruct (span_digits s) as [d' r'] eqn:E. intros [= <- <-].
    simpl. rewrite Hc. by eapply IH.
Qed.

Lemma digits1_decimal s d r : digits1 s = Some (d, r) → all_decimal d = true.
Proof.
  unfold digits1. destruct (span_digits s) as [d' r'] eqn:E.
  apply span_digits_decimal in E. destruct d'; [done|]. by intros [= <- <-].
Qed.

Lemma int_acc_nonneg s acc : all_decimal s = true → 0 ≤ acc → 0 ≤ int_acc acc s.
Proof.
  revert acc. induction s as [|c s IH]; intros acc; simpl; [done|].
  intros [Hc Hs]%andb_true_iff Hacc. apply IH; [done|].
  unfold isdecimal, in_range in Hc.
  apply andb_true_iff in Hc as [Hlo%N.leb_le _]. lia.
Qed.

Lemma hunk_header_match_decimal line g1 :
  hunk_header_match line = Some g1 → all_decimal g1 = true.
Proof.
  unfold hunk_header_match. intros H.
  repeat match type of H with
         | (_ ≫= _) = Some _ =>
             apply bind_Some in H as (? & ? & H)
         | (let '(_, _) := ?p in _) = Some _ => destruct p
         end.
  injection H as <-. by eapply digits1_decimal.
Qed.

Lemma scan_init_inv : scan_inv scan_init.
Proof. split; simpl; [done | done | by intros f lines n ?]. Qed.

Lemma truthy_Some s f : truthy (Some s) = Some f → f = s.
Proof. destruct s; simpl; congruence. Qed.

(** One turn of the loop either returns and keeps the invariant, or raises
    the [ValueError] of [int] on the start of a hunk header that has more
    digits than the limit.  It never raises [KeyError]. *)
Lemma scan_line_cases st line :
  scan_inv st →
  (∃ st', scan_line st line = Returned st' ∧ scan_inv st')
  ∨ (scan_line st line = Raised ValueError
     ∧ ∃ g1, hunk_header_match line = Some g1
             ∧ (int_max_str_digits < String.length g1)%nat).
Proof.
  intros Hst. pose proof Hst as [Hfile Hcount Hrec]. unfold scan_line.
  destruct (startswith line "+++ b/").
  { left. eexists. split; [done|]. split; fields.
    - intros f ->%truthy_Some. by rewrite lookup_insert_eq.
    - done.
    - intros f lines n. rewrite lookup_insert. case_decide.
      + intros [= <-]. set_solver.
      + apply Hrec. }
  destruct (startswith line "@@").
  { destruct (hunk_header_match line) as [g1|] eqn:Hg; [|left; by exists st].
    destruct (truthy (current_file st)); [|left; by exists st].
    destruct (int g1) as [start|e] eqn:E.
    - left. eexists. split; [done|]. split; fields; [apply Hst | | done].
      apply int_Returned in E as [_ ->].
      apply int_acc_nonneg; [by eapply hunk_header_match_decimal | done].
    - right. apply int_Raised in E as [Hlong ->]. split; [done|]. by exists g1. }
  left.
  assert (∃ st', (if startswith line " " || startswith line "-"
                  then Returned {| changed_lines := changed_lines st;
                                   current_file := current_file st;
                                   current_line := current_line st + 1 |}
                  else Returned st) = Returned st' ∧ scan_inv st') as Hrest.
  { destruct (startswith line " " || startswith line "-"); [|by exists st].
    eexists. split; [done|]. split; fields; [done | lia | done]. }
  destruct (if startswith line "+" then truthy (current_file st) else None)
    as [f|] eqn:Hf; [|done].
  destruct (startswith line "+++"); [done|].
  destruct (startswith line "+"); [|done].
  destruct (Hfile f Hf) as [lines Hlines]. rewrite Hlines.
  eexists. split; [done|]. split; fields.
  - intros f' Hf'. rewrite lookup_insert. case_decide; [done | by apply Hfile].
  - lia.
  - intros f' lines' n. rewrite lookup_insert. case_decide.
    + intros [= <-] [->%elem_of_singleton | Hn]%elem_of_union; [done|].
      by eapply Hrec.
    + apply Hrec.
Qed.

Lemma scan_lines_cons st line (lines : list string) :
  scan_lines st (line :: lines) = scan_line st line ≫= λ st', scan_lines st' lines.
Proof. done. Qed.

Lemma scan_lines_inv st (lines : list string) st' :
  scan_inv st → scan_lines st lines = Returned st' → scan_inv st'.
Proof.
  revert st. induction lines as [|line lines IH]; intros st Hst.
  - by intros [= <-].
  - rewrite scan_lines_cons.
    destruct (scan_line_cases st line Hst) as [(st1 & -> & Hst1) | [-> _]];
      [|done].
    by apply IH.
Qed.

(** The only exception the loop can raise. *)
Lemma scan_lines_raises st (lines : list string) e :
  scan_inv st → scan_lines st lines = Raised e →
  e = ValueError
  ∧ ∃ line g1, line ∈ lines ∧ hunk_header_match line = Some g1
               ∧ (int_max_str_digits < String.length g1)%nat.
Proof.
  revert st. induction lines as [|line lines IH]; intros st Hst; [done|].
  rewrite scan_lines_cons.
  destruct (scan_line_cases st line Hst)
    as [(st1 & -> & Hst1) | [-> (g1 & Hg & Hlong)]].
  - intros [-> (l & g & Hin & Hg & Hlong)]%(IH _ Hst1). split; [done|].
    exists l, g. split_and!; [by right | done..].
  - intros [= <-]. split; [done|]. exists line, g1.
    split_and!; [by left | done..].
Qed.

Lemma scan_lines_returns st (lines : list string) :
  scan_inv st →
  Forall (λ line, ∀ g1, hunk_header_match line = Some g1 →
                        (String.length g1 ≤ int_max_str_digits)%nat) lines →
  ∃ st', scan_lines st lines = Returned st'.
Proof.
  intros Hst Hshort. destruct (scan_lines st lines) as [st'|e] eqn:E.
  - by exists st'.
  - apply scan_lines_raises in E as [_ (line & g1 & Hin & Hg & Hlong)]; [|done].
    rewrite Forall_forall in Hshort. specialize (Hshort _ Hin _ Hg). lia.
Qed.

Lemma changed_lines_of_diff_Returned d cl :
  changed_lines_of_diff d = Returned cl
  ↔ ∃ st, scan_lines scan_init (splitlines d) = Returned st
          ∧ changed_lines st = cl.
Proof.
  unfold changed_lines_of_diff.
  destruct (scan_lines scan_init (splitlines d)) as [st|e].
  - split; [intros [= <-]; by exists st | by intros (st' & [= <-] & <-)].
  - split; [done | by intros (st' & [=] & _)].
Qed.

Lemma changed_lines_of_diff_Raised d e :
  changed_lines_of_diff d = Raised e
  ↔ scan_lines scan_init (splitlines d) = Raised e.
Proof.
  unfold changed_lines_of_diff.
  destruct (scan_lines scan_init (splitlines d)) as [st|e'];
    cbv [mbind res_mbind res_bind]; split; intros H; by inversion H.
Qed.

(** The extractor raises nothing but the [ValueError] of [int]. *)
Lemma changed_lines_of_diff_raises d e :
  changed_lines_of_diff d = Raised e → e = ValueError.
Proof.
  intros H%changed_lines_of_diff_Raised.
  by apply scan_lines_raises in H as [-> _]; [|apply scan_init_inv].
Qed.

(** No recorded line number is negative. *)
Lemma changed_lines_of_diff_nonneg d cl f lines n :
  changed_lines_of_diff d = Returned cl →
  cl !! f = Some lines → n ∈ lines → 0 ≤ n.
Proof.
  intros (st & Hst & <-)%changed_lines_of_diff_Returned.
  apply scan_lines_inv in Hst as [_ _ Hrec]; [|apply scan_init_inv].
  apply Hrec.
Qed.

(** On a hunk without removed lines the extractor records the added
    lines: the diff that adds lines 10 and 11 gives the changed lines of the
    scenarios. *)
Lemma added_lines_recorded :
  changed_lines_of_diff added_lines_diff = Returned changed_a
  ∧ records_added_lines added_lines_diff.
Proof.
  assert (changed_lines_of_diff added_lines_diff = Returned changed_a) as Hcode
    by (by vm_compute).
  split; [done|]. intros cl f lines n Hcl Hf Hn.
  rewrite Hcode in Hcl. injection Hcl as <-. unfold changed_a in Hf.
  apply lookup_singleton_Some in Hf as [<- <-].
  apply list_elem_of_In.
  apply elem_of_union in Hn as [->%elem_of_singleton | ->%elem_of_singleton];
    vm_compute; tauto.
Qed.

End extractor_facts.

(** ** Facts about the whole run *)

Section run_facts.
Implicit Types w : world.
Implicit Types cl : gmap string (gset Z).

(** Runs the binds of [io] whose first part is known. *)
Ltac run_io :=
  cbn [mbind io_mbind io_bind mret io_ret ended printed print app].

(** Every way a run can go, with what it prints and how it ends. *)
Lemma main_outcomes w :
  main w =
  let banner := (Stdout, "======== Getting changed lines =============") in
  let banner' := (Stdout, "======== Filtered Logs =============") in
  match git_diff_staged w with
  | CalledProcessError e =>
      IO [banner; (Stderr, "Error getting git diff: " +:+ e)]
         (Raised (SystemExit 1))
  | GitOutput d =>
      match changed_lines_of_diff d with
      | Raised e => IO [banner] (Raised e)
      | Returned cl =>
          if bool_decide (cl = ∅) then
            IO [banner; (Stderr, "No staged files or changed lines to process.")]
               (Raised (SystemExit 0))
          else
            match file_contents w (output_path w) with
            | None =>
                IO [banner;
                    (Stderr, "Log file " +:+ output_path w +:+ " not found.")]
                   (Raised (SystemExit 1))
            | Some text =>
                match filter_logs (splitlines text) cl with
                | Raised e => IO [banner] (Raised e)
                | Returned [] =>
                    IO [banner; banner';
                        (Stdout,
                         "No logs found for changed lines in staged files.")]
                       (Returned ())
                | Returned (log :: logs) =>
                    IO [banner; banner';
                        (Stdout, join (String LF EmptyString) (log :: logs))]
                       (Returned ())
                end
            end
      end
  end.
Proof.
  unfold main, get_changed_lines, read_saved_logs.
  destruct (git_diff_staged w) as [d|e]; [|done].
  destruct (changed_lines_of_diff d) as [cl|e]; [|done].
  unfold lift. run_io. destruct (bool_decide (cl = ∅)); [done|].
  destruct (file_contents w (output_path w)) as [text|]; [|done].
  run_io. by destruct (filter_logs (splitlines text) cl) as [[|log logs]|e].
Qed.

(** A structured line without [src/] in the saved log ends the run: the
    first banner is all that is printed, the exception is not caught, and
    the exit status is 1. *)
Lemma main_unmarked_line w d cl text log path num :
  git_diff_staged w = GitOutput d →
  changed_lines_of_diff d = Returned cl →
  cl ≠ ∅ →
  file_contents w (output_path w) = Some text →
  log ∈ splitlines text →
  log_pattern_match log = Some (path, num) →
  contains "src/" path = false →
  main w = IO [(Stdout, "======== Getting changed lines =============")]
              (Raised ValueError)
  ∧ exit_status (main w) = 1.
Proof.
  intros Hgit Hcl Hne Htext Hin Hm Hc.
  assert (filter_logs (splitlines text) cl = Raised ValueError) as Hraise.
  { rewrite filter_logs_nonempty_changed by done.
    eapply filter_loop_Raised; [done|]. by eapply keep_log_unmarked. }
  rewrite main_outcomes, Hgit, Hcl, Htext, Hraise.
  by rewrite bool_decide_eq_false_2.
Qed.

End run_facts.

(** * The claims *)

(** ** The log filter: what is kept *)

Section filter_claims.
Implicit Types cl : gmap string (gset Z).
Implicit Types logs out : list string.
Implicit Types log path num key : string.

(** C2, as the code has it.  A line that matches the structured pattern,
    whose path contains [src/] and whose number has at most 4300 digits,
    has exactly one key: the path, stripped of white space at both ends,
    from the first place where [src/] starts.  The filter keeps the line
    if and only if the key is in the changed lines and the parsed line
    number is in the key's set; otherwise it drops the line.  With a
    number of more than 4300 digits and changed lines that are not empty
    the filter raises [ValueError].  With lines 10 and 11 of [src/a.py]
    changed, [src/a.py:10:5: unused import] is kept, [src/a.py:99: other]
    is dropped, and [/home/user/project/src/a.py:10: msg] is kept. *)
Theorem structured_line_kept_iff :
  (∀ cl log path num,
     log_pattern_match log = Some (path, num) →
     contains "src/" path = true →
     (String.length num ≤ int_max_str_digits)%nat →
     ∃ key,
       from_first "src/" (strip path) key
       ∧ (∀ key', from_first "src/" (strip path) key' → key' = key)
       ∧ (filter_logs [log] cl = Returned [log]
          ↔ ∃ lines, cl !! key = Some lines ∧ digits_value num ∈ lines)
       ∧ (filter_logs [log] cl = Returned []
          ↔ ¬ ∃ lines, cl !! key = Some lines ∧ digits_value num ∈ lines)
       ∧ ∀ logs out,
           filter_logs logs cl = Returned out →
           log ∈ out
           ↔ log ∈ logs
             ∧ ∃ lines, cl !! key = Some lines ∧ digits_value num ∈ lines)
  ∧ (∀ cl log path num,
       log_pattern_match log = Some (path, num) →
       contains "src/" path = true →
       (int_max_str_digits < String.length num)%nat →
       cl ≠ ∅ →
       filter_logs [log] cl = Raised ValueError)
  ∧ filter_logs ["src/a.py:10:5: unused import"; "src/a.py:99: other"] changed_a
    = Returned ["src/a.py:10:5: unused import"]
  ∧ filter_logs ["/home/user/project/src/a.py:10: msg"] changed_a
    = Returned ["/home/user/project/src/a.py:10: msg"].
Proof.
  split_and!; [| | by vm_compute..].
  - intros cl log path num Hm Hc Hshort.
    destruct (relative_path_marked _ Hc) as (key & Hp & Hk).
    assert (int num = Returned (digits_value num)) as Hn
      by (by apply int_Returned).
    pose proof (keep_log_structured cl _ _ _ _ _ Hm Hp Hn) as Hkeep.
    exists key. split_and!.
    + done.
    + intros key' Hk'. by eapply from_first_unique.
    + rewrite (filter_logs_single _ _ _ Hkeep), <- is_changed_spec.
      destruct (is_changed cl key (digits_value num)); split; done.
    + rewrite (filter_logs_single _ _ _ Hkeep), <- is_changed_spec.
      destruct (is_changed cl key (digits_value num)); split; done.
    + intros logs out Hout.
      rewrite (filter_logs_elem_of _ _ _ _ Hout), <- is_changed_spec.
      unfold keeps. by rewrite Hkeep.
  - intros cl log path num Hm Hc Hlong Hne.
    destruct (relative_path_marked _ Hc) as (key & Hp & _).
    rewrite filter_logs_nonempty_changed by done.
    eapply filter_loop_Raised; [apply list_elem_of_here|].
    by eapply keep_log_long_number.
Qed.

Lemma structured_line_kept_iff_witness :
  ∃ key,
    from_first "src/" (strip "/home/user/project/src/a.py") key
    ∧ (∀ key', from_first "src/" (strip "/home/user/project/src/a.py") key' →
               key' = key)
    ∧ (filter_logs ["/home/user/project/src/a.py:10: msg"] changed_a
         = Returned ["/home/user/project/src/a.py:10: msg"]
       ↔ ∃ lines, changed_a !! key = Some lines ∧ digits_value "10" ∈ lines)
    ∧ (filter_logs ["/home/user/project/src/a.py:10: msg"] changed_a
         = Returned []
       ↔ ¬ ∃ lines, changed_a !! key = Some lines ∧ digits_value "10" ∈ lines)
    ∧ ∀ logs out,
        filter_logs logs changed_a = Returned out →
        "/home/user/project/src/a.py:10: msg" ∈ out
        ↔ "/home/user/project/src/a.py:10: msg" ∈ logs
          ∧ ∃ lines, changed_a !! key = Some lines ∧ digits_value "10" ∈ lines.
Proof.
  apply (proj1 structured_line_kept_iff changed_a
           "/home/user/project/src/a.py:10: msg"
           "/home/user/project/src/a.py" "10").
  - vm_compute. reflexivity.
  - vm_compute. reflexivity.
  - vm_compute. lia.
Defined.

(** C2, as the claim has it, fails.  In [src/a.py :10: msg] the matched
    path ends in a blank; cut at [src/] it is no key of the changed lines,
    and yet the line is kept, because the code strips the path first.  And
    on a line whose number has 4301 digits the filter neither keeps nor
    drops the line: it raises. *)
Lemma structured_line_raw_key_fails :
  log_pattern_match "src/a.py :10: msg" = Some ("src/a.py ", "10")
  ∧ changed_a !! "src/a.py " = None
  ∧ filter_logs ["src/a.py :10: msg"] changed_a = Returned ["src/a.py :10: msg"]
  ∧ ¬ kept_iff_raw_key changed_a "src/a.py :10: msg"
  ∧ log_pattern_match long_number_log = Some ("src/a.py", long_number)
  ∧ filter_logs [long_number_log] changed_a = Raised ValueError
  ∧ ¬ kept_iff_raw_key changed_a long_number_log.
Proof.
  assert (log_pattern_match "src/a.py :10: msg" = Some ("src/a.py ", "10"))
    as Hm1 by (by vm_compute).
  assert (filter_logs ["src/a.py :10: msg"] changed_a
          = Returned ["src/a.py :10: msg"]) as Hf1 by (by vm_compute).
  assert (log_pattern_match long_number_log = Some ("src/a.py", long_number))
    as Hm2 by (by vm_compute).
  assert (filter_logs [long_number_log] changed_a = Raised ValueError)
    as Hf2 by (by vm_compute).
  split_and!; [done | by vm_compute | done | | done | done |].
  - intros H.
    destruct (H "src/a.py " "10" "src/a.py " Hm1) as [[_ (l & Hl & _)] | [Hr _]].
    + apply (find_from_first "src/" "src/a.py " 0). by vm_compute.
    + by vm_compute in Hl.
    + rewrite Hf1 in Hr. discriminate Hr.
  - intros H.
    destruct (H "src/a.py" long_number "src/a.py" Hm2) as [[Hr _] | [Hr _]].
    + apply (find_from_first "src/" "src/a.py" 0). by vm_compute.
    + rewrite Hf2 in Hr. discriminate Hr.
    + rewrite Hf2 in Hr. discriminate Hr.
Qed.

(** C4.  A line that does not match the structured pattern is kept if and
    only if some key of the changed lines occurs in it as a substring;
    otherwise it is dropped.  [black: reformatted src/a.py] is kept when
    [src/a.py] is a key. *)
Theorem free_line_kept_iff :
  (∀ cl log,
     log_pattern_match log = None →
     (filter_logs [log] cl = Returned [log]
      ↔ ∃ key, key ∈ dom cl ∧ is_substring key log)
     ∧ (filter_logs [log] cl = Returned []
        ↔ ¬ ∃ key, key ∈ dom cl ∧ is_substring key log)
     ∧ ∀ logs out,
         filter_logs logs cl = Returned out →
         log ∈ out ↔ log ∈ logs ∧ ∃ key, key ∈ dom cl ∧ is_substring key log)
  ∧ log_pattern_match "black: reformatted src/a.py" = None
  ∧ filter_logs ["black: reformatted src/a.py"] changed_a
    = Returned ["black: reformatted src/a.py"].
Proof.
  split; [|split; by vm_compute].
  intros cl log Hm. pose proof (keep_log_free cl _ Hm) as Hkeep.
  split_and!.
  - rewrite (filter_logs_single _ _ _ Hkeep), <- mentions_changed_file_spec.
    destruct (mentions_changed_file cl log); split; done.
  - rewrite (filter_logs_single _ _ _ Hkeep), <- mentions_changed_file_spec.
    destruct (mentions_changed_file cl log); split; done.
  - intros logs out Hout.
    rewrite (filter_logs_elem_of _ _ _ _ Hout), <- mentions_changed_file_spec.
    unfold keeps. by rewrite Hkeep.
Qed.

Lemma free_line_kept_iff_witness :
  (filter_logs ["black: reformatted src/a.py"] changed_a
     = Returned ["black: reformatted src/a.py"]
   ↔ ∃ key, key ∈ dom changed_a ∧ is_substring key "black: reformatted src/a.py")
  ∧ (filter_logs ["black: reformatted src/a.py"] changed_a = Returned []
     ↔ ¬ ∃ key, key ∈ dom changed_a
                ∧ is_substring key "black: reformatted src/a.py")
  ∧ ∀ logs out,
      filter_logs logs changed_a = Returned out →
      "black: reformatted src/a.py" ∈ out
      ↔ "black: reformatted src/a.py" ∈ logs
        ∧ ∃ key, key ∈ dom changed_a
                 ∧ is_substring key "black: reformatted src/a.py".
Proof.
  apply (proj1 free_line_kept_iff changed_a "black: reformatted src/a.py").
  vm_compute. reflexivity.
Defined.




End filter_claims.

(** ** The log filter: shape of the output *)

Section filter_shape.
Implicit Types cl : gmap string (gset Z).
Implicit Types logs out : list string.
Implicit Types log path num key : string.

(** C3, as the code has it.  When some line of the log matches the
    structured pattern and its path does not contain [src/], the filter
    raises [ValueError] if the changed lines are not empty, whatever the
    other lines are, and returns the empty list if they are empty. *)
Theorem unmarked_line_raises cl logs log path num :
  log ∈ logs →
  log_pattern_match log = Some (path, num) →
  contains "src/" path = false →
  (cl ≠ ∅ → filter_logs logs cl = Raised ValueError)
  ∧ (cl = ∅ → filter_logs logs cl = Returned []).
Proof.
  intros Hin Hm Hc. split.
  - intros Hne. rewrite filter_logs_nonempty_changed by done.
    eapply filter_loop_Raised; [done|]. by eapply keep_log_unmarked.
  - intros ->. apply filter_logs_empty_changed.
Qed.

Lemma unmarked_line_raises_witness :
  filter_logs ["README.md:3: typo"; "src/a.py:10: msg"] changed_a
  = Raised ValueError.
Proof.
  apply (unmarked_line_raises changed_a
           ["README.md:3: typo"; "src/a.py:10: msg"]
           "README.md:3: typo" "README.md" "3").
  - apply list_elem_of_here.
  - vm_compute. reflexivity.
  - vm_compute. reflexivity.
  - apply (bool_decide_eq_false_1 (changed_a = ∅)). vm_compute. reflexivity.
Defined.

(** C3, as the claim has it, fails: [README.md:3: typo] matches the
    structured pattern, its path has no [src/], and the filter does not
    skip it and go on to the next line: it raises. *)
Lemma unmarked_line_not_skipped :
  log_pattern_match "README.md:3: typo" = Some ("README.md", "3")
  ∧ contains "src/" "README.md" = false
  ∧ filter_logs ["README.md:3: typo"; "src/a.py:10: msg"] changed_a
    = Raised ValueError
  ∧ ¬ skipped changed_a ["README.md:3: typo"; "src/a.py:10: msg"]
        "README.md:3: typo".
Proof.
  assert (filter_logs ["README.md:3: typo"; "src/a.py:10: msg"] changed_a
          = Raised ValueError) as Hraise by (by vm_compute).
  split_and!; [by vm_compute | by vm_compute | done |].
  intros (out & Hout & _). rewrite Hraise in Hout. discriminate Hout.
Qed.

(** C5.  What the filter returns is a sublist of the log: lines of the
    log, in their order, each at most as often as the log has it, and
    each unchanged. *)
Theorem filter_logs_sublist logs cl out :
  filter_logs logs cl = Returned out → out `sublist_of` logs.
Proof. intros ->%filter_logs_Returned. apply sublist_filter. Qed.

Lemma filter_logs_sublist_witness :
  ["src/a.py:10:5: unused import"; "black: reformatted src/a.py"]
    `sublist_of` ["src/a.py:10:5: unused import"; "src/a.py:99: other";
                  "black: reformatted src/a.py"].
Proof.
  apply (filter_logs_sublist
           ["src/a.py:10:5: unused import"; "src/a.py:99: other";
            "black: reformatted src/a.py"] changed_a).
  vm_compute. reflexivity.
Defined.

(** C6.  With no changed lines the filter returns the empty list for
    every log, and on the empty log it returns the empty list for all
    changed lines. *)
Theorem filter_logs_empty logs cl :
  filter_logs logs ∅ = Returned [] ∧ filter_logs [] cl = Returned [].
Proof.
  split; [apply filter_logs_empty_changed|].
  unfold filter_logs. by case_bool_decide.
Qed.

Lemma filter_keeps_idemp cl logs :
  filter (keeps cl) (filter (keeps cl) logs) = filter (keeps cl) logs.
Proof.
  induction logs as [|log logs IH]; [done|].
  rewrite filter_keeps_cons. destruct (keeps cl log) eqn:E; [|done].
  by rewrite filter_keeps_cons, E, IH.
Qed.

Lemma all_decided_kept cl logs : all_decided cl (filter (keeps cl) logs).
Proof.
  apply Forall_forall. intros log [Hk _]%list_elem_of_filter.
  unfold keeps in Hk. destruct (keep_log cl log) as [keep|]; [|done].
  by exists keep.
Qed.

(** C7.  The filter is a function of the log and the changed lines, so
    two runs on the same pair return the same list; and the filter
    applied to what it returned, with the same changed lines, returns
    that list again. *)
Theorem filter_logs_idempotent logs cl out :
  filter_logs logs cl = Returned out →
  (∀ out', filter_logs logs cl = Returned out' → out' = out)
  ∧ filter_logs out cl = Returned out.
Proof.
  intros Hout. split; [intros out' Hout'; congruence|].
  apply filter_logs_Returned in Hout as ->.
  rewrite filter_logs_decided by apply all_decided_kept.
  by rewrite filter_keeps_idemp.
Qed.

Lemma filter_logs_idempotent_witness :
  (∀ out',
     filter_logs ["src/a.py:10:5: unused import"; "src/a.py:99: other";
                  "black: reformatted src/a.py"] changed_a = Returned out' →
     out' = ["src/a.py:10:5: unused import"; "black: reformatted src/a.py"])
  ∧ filter_logs ["src/a.py:10:5: unused import"; "black: reformatted src/a.py"]
      changed_a
    = Returned ["src/a.py:10:5: unused import"; "black: reformatted src/a.py"].
Proof.
  apply (filter_logs_idempotent
           ["src/a.py:10:5: unused import"; "src/a.py:99: other";
            "black: reformatted src/a.py"] changed_a).
  vm_compute. reflexivity.
Defined.

End filter_shape.

(** ** The diff extractor against the new file *)

(** C1 fails on the code.  For the diff that replaces line 1 of
    [src/a.py] and keeps line 2, the extractor records the number 2; in the
    new file line 2 is the context line, and the added line is line 1.
    The removed line has advanced the counter. *)
Theorem removed_line_shifts_record :
  changed_lines_of_diff replaced_line_diff = Returned {[ "src/a.py" := {[2]} ]}
  ∧ Unified.new_file_lines replaced_line_diff
    = [("src/a.py", 1, Unified.Added); ("src/a.py", 2, Unified.Context)]
  ∧ ¬ records_added_lines replaced_line_diff.
Proof.
  assert (changed_lines_of_diff replaced_line_diff
          = Returned {[ "src/a.py" := {[2]} ]}) as Hcode by (by vm_compute).
  assert (Unified.new_file_lines replaced_line_diff
          = [("src/a.py", 1, Unified.Added); ("src/a.py", 2, Unified.Context)])
    as Href by (by vm_compute).
  split_and!; [done..|]. intros Hall.
  specialize (Hall _ "src/a.py" {[2]} 2 Hcode).
  rewrite Href in Hall. rewrite lookup_singleton_eq in Hall.
  specialize (Hall eq_refl ltac:(by apply elem_of_singleton)).
  apply list_elem_of_In in Hall. destruct Hall as [[=] | [[=] | []]].
Qed.

(** C8 fails on the code.  For the diff of a new file of one line, whose
    hunk header has no counts, the extractor records the number 0; the
    added line is line 1 of the new file. *)
Theorem line_zero_recorded :
  changed_lines_of_diff new_file_diff = Returned {[ "src/a.py" := {[0]} ]}
  ∧ hunk_header_match "@@ -0,0 +1 @@" = None
  ∧ Unified.new_file_lines new_file_diff = [("src/a.py", 1, Unified.Added)]
  ∧ ¬ records_positive new_file_diff.
Proof.
  assert (changed_lines_of_diff new_file_diff
          = Returned {[ "src/a.py" := {[0]} ]}) as Hcode by (by vm_compute).
  split_and!; [done | by vm_compute.. |]. intros Hall.
  specialize (Hall _ "src/a.py" {[0]} 0 Hcode).
  rewrite lookup_singleton_eq in Hall.
  specialize (Hall eq_refl ltac:(by apply elem_of_singleton)). lia.
Qed.

(** ** The whole run *)

(** C9.  When the staged diff yields no changed lines, as the empty diff
    of an index without staged changes does, the extractor returns the
    empty dictionary; the process prints its first banner, then the note
    that there is nothing to process, and exits with status 0.  Nothing
    else reaches the standard output: no second banner, no log line. *)
Theorem nothing_staged_exits_zero :
  changed_lines_of_diff "" = Returned ∅
  ∧ ∀ w d,
      git_diff_staged w = GitOutput d →
      changed_lines_of_diff d = Returned ∅ →
      get_changed_lines w = IO [] (Returned ∅)
      ∧ main w
        = IO [ (Stdout, "======== Getting changed lines =============");
               (Stderr, "No staged files or changed lines to process.") ]
             (Raised (SystemExit 0))
      ∧ exit_status (main w) = 0
      ∧ printed_to Stdout (main w)
        = ["======== Getting changed lines ============="].
Proof.
  split; [by vm_compute|]. intros w d Hgit Hnone.
  assert (get_changed_lines w = IO [] (Returned ∅)) as Hget.
  { unfold get_changed_lines, lift. by rewrite Hgit, Hnone. }
  assert (main w
          = IO [ (Stdout, "======== Getting changed lines =============");
                 (Stderr, "No staged files or changed lines to process.") ]
               (Raised (SystemExit 0))) as Hmain.
  { unfold main. rewrite Hget. reflexivity. }
  split_and!; [done | done | by rewrite Hmain..].
Qed.

Lemma nothing_staged_exits_zero_witness :
  get_changed_lines nothing_staged = IO [] (Returned ∅)
  ∧ main nothing_staged
    = IO [ (Stdout, "======== Getting changed lines =============");
           (Stderr, "No staged files or changed lines to process.") ]
         (Raised (SystemExit 0))
  ∧ exit_status (main nothing_staged) = 0
  ∧ printed_to Stdout (main nothing_staged)
    = ["======== Getting changed lines ============="].
Proof.
  apply (proj2 nothing_staged_exits_zero nothing_staged "").
  - reflexivity.
  - vm_compute. reflexivity.
Defined.

(** * Further properties of the code *)

#[local] Set Warnings "-clear-no-such-hyp".

(** ** The diff extractor *)

Section extractor_more.
Implicit Types st : scan_state.
Implicit Types line f : string.
Implicit Types body : list string.

Lemma startswith_spec line p : startswith line p = true ↔ ∃ t, line = p +:+ t.
Proof. apply prefix_spec. Qed.

Lemma body_line_not_header line :
  body_line line = true →
  startswith line "+++ b/" = false ∧ startswith line "@@" = false.
Proof.
  intros [Hkind Hplus%negb_true_iff]%andb_true_iff. split.
  - destruct (startswith line "+++ b/") eqn:E; [|done].
    apply startswith_spec in E as [t ->]. by vm_compute in Hplus.
  - apply orb_true_iff in Hkind as [[H|H]%orb_true_iff|H];
      apply startswith_spec in H as [t ->]; by vm_compute.
Qed.

Lemma scan_line_body st line f lines0 :
  body_line line = true →
  truthy (current_file st) = Some f →
  changed_lines st !! f = Some lines0 →
  scan_line st line
  = Returned {| changed_lines :=
                  if startswith line "+"
                  then <[f := {[current_line st]} ∪ lines0]> (changed_lines st)
                  else changed_lines st;
                current_file := current_file st;
                current_line := current_line st + 1 |}.
Proof.
  intros Hbody Hf Hlines.
  destruct (body_line_not_header _ Hbody) as [Hhead Hhunk].
  apply andb_true_iff in Hbody as [Hkind Hplus%negb_true_iff].
  unfold scan_line. rewrite Hhead, Hhunk, Hplus.
  destruct (startswith line "+").
  - by rewrite Hf, Hlines.
  - rewrite orb_false_r in Hkind. by rewrite Hkind.
Qed.

Lemma scan_lines_body st body f lines0 :
  Forall (λ line, body_line line = true) body →
  truthy (current_file st) = Some f →
  changed_lines st !! f = Some lines0 →
  scan_lines st body
  = Returned {| changed_lines :=
                  <[f := added_numbers (current_line st) body ∪ lines0]>
                    (changed_lines st);
                current_file := current_file st;
                current_line := current_line st + Z.of_nat (length body) |}.
Proof.
  intros Hbody. revert st lines0.
  induction Hbody as [|line body Hline _ IH]; intros st lines0 Hf Hlines.
  - simpl. destruct st as [cl cf n]. fields. f_equal. f_equal; [|lia].
    rewrite (left_id_L ∅ (∪)). by rewrite insert_id.
  - cbn [scan_lines]. rewrite (scan_line_body _ _ _ _ Hline Hf Hlines).
    change (Returned ?x ≫= ?k) with (k x). cbv beta.
    destruct (startswith line "+") eqn:Hplus.
    + rewrite (IH _ ({[current_line st]} ∪ lines0)); fields;
        [|done | by rewrite lookup_insert_eq].
      f_equal. f_equal.
      * rewrite insert_insert_eq. f_equal. cbn [added_numbers].
        rewrite Hplus. set_solver.
      * rewrite length_cons. lia.
    + rewrite (IH _ lines0); fields; [|done..].
      f_equal. f_equal.
      * f_equal. cbn [added_numbers]. rewrite Hplus. set_solver.
      * rewrite length_cons. lia.
Qed.

Lemma elem_of_added_numbers start body n :
  n ∈ added_numbers start body
  ↔ ∃ (i : nat) line, body !! i = Some line ∧ startswith line "+" = true
                      ∧ n = start + Z.of_nat i.
Proof.
  revert start. induction body as [|line body IH]; intros start.
  - simpl. split; [set_solver | by intros (i & line & ? & _)].
  - cbn [added_numbers]. rewrite elem_of_union, IH. split.
    + intros [Hn | (i & l & Hi & Hl & ->)].
      * destruct (startswith line "+") eqn:E; [|set_solver].
        apply elem_of_singleton in Hn as ->. exists O, line.
        split_and!; [done.. | lia].
      * exists (S i), l. split_and!; [done.. | lia].
    + intros ([|i] & l & Hi & Hl & ->).
      * injection Hi as ->. left. rewrite Hl. apply elem_of_singleton. lia.
      * right. exists i, l. split_and!; [done.. | lia].
Qed.

Lemma scan_line_dom st line st' :
  scan_line st line = Returned st' →
  dom (changed_lines st')
  = dom (changed_lines st) ∪ list_to_set (header_paths [line]).
Proof.
  unfold scan_line, header_paths. cbn [omap list_omap].
  destruct (startswith line "+++ b/").
  { intros [= <-]. fields. rewrite dom_insert_L. set_solver. }
  cbn [list_to_set]. rewrite (right_id_L ∅ (∪)).
  destruct (startswith line "@@").
  { destruct (hunk_header_match line) as [g1|];
      [destruct (truthy (current_file st))|]; try by intros [= <-].
    destruct (int g1); [by intros [= <-] | done]. }
  destruct (if startswith line "+" then truthy (current_file st) else None)
    as [f|]; [destruct (startswith line "+++")|].
  - destruct (startswith line " " || startswith line "-"); by intros [= <-].
  - destruct (changed_lines st !! f) as [lines|] eqn:E; [|done].
    intros [= <-]. fields. rewrite dom_insert_L.
    apply elem_of_dom_2 in E. set_solver.
  - destruct (startswith line " " || startswith line "-"); by intros [= <-].
Qed.

Lemma header_paths_cons line (lines : list string) :
  header_paths (line :: lines) = header_paths [line] ++ header_paths lines.
Proof.
  unfold header_paths. cbn [omap list_omap].
  by destruct (startswith line "+++ b/").
Qed.

Lemma scan_lines_dom st (lines : list string) st' :
  scan_lines st lines = Returned st' →
  dom (changed_lines st')
  = dom (changed_lines st) ∪ list_to_set (header_paths lines).
Proof.
  revert st. induction lines as [|line lines IH]; intros st.
  - intros [= <-]. cbn. set_solver.
  - cbn [scan_lines]. destruct (scan_line st line) as [st1|e] eqn:E; [|done].
    change (Returned st1 ≫= ?k) with (k st1). cbv beta. intros H.
    rewrite (header_paths_cons line lines), list_to_set_app_L.
    by rewrite (IH _ H), (scan_line_dom _ _ _ E), (assoc_L (∪)).
Qed.

End extractor_more.

(** X1.  The extractor never raises [KeyError]: the subscript
    [changed_lines[current_file]] never meets a missing key, because a true
    [current_file] has always been entered as a key first.  The only
    exception of the loop is the [ValueError] of [int] on a hunk header
    whose new start has more than 4300 digits.  When no hunk header of the
    diff has such a start, the loop returns a dictionary, and
    [get_changed_lines] ends normally without printing whenever
    [subprocess.run] hands it that diff text. *)
Theorem extractor_never_raises (d : string) :
  (∀ e, changed_lines_of_diff d = Raised e →
        e = ValueError
        ∧ ∃ line g1, line ∈ splitlines d
                     ∧ hunk_header_match line = Some g1
                     ∧ (int_max_str_digits < String.length g1)%nat)
  ∧ (Forall (λ line, ∀ g1, hunk_header_match line = Some g1 →
                           (String.length g1 ≤ int_max_str_digits)%nat)
       (splitlines d) →
     ∃ cl, changed_lines_of_diff d = Returned cl
           ∧ ∀ w, git_diff_staged w = GitOutput d →
                  get_changed_lines w = IO [] (Returned cl)).
Proof.
  split.
  - intros e H%changed_lines_of_diff_Raised.
    by apply scan_lines_raises in H; [|apply scan_init_inv].
  - intros Hshort.
    destruct (scan_lines_returns scan_init _ scan_init_inv Hshort) as [st Hst].
    exists (changed_lines st). split.
    + apply changed_lines_of_diff_Returned. by exists st.
    + intros w Hw. unfold get_changed_lines, lift. rewrite Hw.
      f_equal. apply changed_lines_of_diff_Returned. by exists st.
Qed.

Lemma extractor_never_raises_witness :
  changed_lines_of_diff long_start_diff = Raised ValueError
  ∧ ∃ cl, changed_lines_of_diff replaced_line_diff = Returned cl
          ∧ ∀ w, git_diff_staged w = GitOutput replaced_line_diff →
                 get_changed_lines w = IO [] (Returned cl).
Proof.
  split; [by vm_compute|].
  apply (proj2 (extractor_never_raises replaced_line_diff)).
  apply Forall_forall. intros line Hin g1 Hg.
  apply list_elem_of_In in Hin. vm_compute in Hin.
  repeat (destruct Hin as [<- | Hin];
          [vm_compute in Hg; simplify_eq; try (vm_compute; lia)|]).
  done.
Defined.

(** X2.  No line number the extractor records is negative: the counter
    starts at 0, is set from a run of digits, and is only ever increased. *)
Theorem recorded_numbers_nonneg (d : string) (cl : gmap string (gset Z))
    (f : string) (lines : gset Z) (n : Z) :
  changed_lines_of_diff d = Returned cl →
  cl !! f = Some lines → n ∈ lines → 0 ≤ n.
Proof. apply changed_lines_of_diff_nonneg. Qed.

Lemma recorded_numbers_nonneg_witness :
  changed_lines_of_diff added_lines_diff = Returned changed_a ∧ 0 ≤ 10.
Proof.
  assert (changed_lines_of_diff added_lines_diff = Returned changed_a) as H
    by (by vm_compute).
  split; [done|].
  apply (recorded_numbers_nonneg added_lines_diff changed_a "src/a.py"
           {[10; 11]} 10 H).
  - vm_compute. reflexivity.
  - apply elem_of_union. left. by apply elem_of_singleton.
Defined.

(** X3.  The keys of the returned dictionary are exactly the paths of the
    [+++ b/] header lines of the diff, each stripped of surrounding white
    space: a file with a header is a key even when no line of it was added,
    and nothing else is ever a key. *)
Theorem keys_are_header_paths (d : string) (cl : gmap string (gset Z)) :
  changed_lines_of_diff d = Returned cl →
  dom cl = list_to_set (header_paths (splitlines d)).
Proof.
  unfold changed_lines_of_diff.
  destruct (scan_lines scan_init (splitlines d)) as [st|e] eqn:E; [|done].
  intros [= <-]. rewrite (scan_lines_dom _ _ _ E). cbn [scan_init changed_lines].
  by rewrite dom_empty_L, (left_id_L ∅ (∪)).
Qed.

Lemma keys_are_header_paths_witness :
  dom ({[ "src/a.py" := {[2]} ]} : gmap string (gset Z))
  = list_to_set (header_paths (splitlines replaced_line_diff)).
Proof.
  apply (keys_are_header_paths replaced_line_diff {[ "src/a.py" := {[2]} ]}).
  vm_compute. reflexivity.
Defined.

(** X4.  Inside a hunk body, that is a run of lines that each start with a
    blank, a minus or a plus (and not with three pluses), every line takes
    one number, whatever its kind.  The run leaves the current file alone,
    advances the counter by its length, changes no other file's set, and
    adds to the current file's set exactly the counter values at the lines
    that start with a plus. *)
Theorem hunk_body_numbers (st : scan_state) (body : list string)
    (f : string) (lines0 : gset Z) :
  Forall (λ line, body_line line = true) body →
  truthy (current_file st) = Some f →
  changed_lines st !! f = Some lines0 →
  ∃ st',
    scan_lines st body = Returned st'
    ∧ current_file st' = current_file st
    ∧ current_line st' = current_line st + Z.of_nat (length body)
    ∧ (∀ f', f' ≠ f → changed_lines st' !! f' = changed_lines st !! f')
    ∧ ∃ lines',
        changed_lines st' !! f = Some lines'
        ∧ ∀ n, n ∈ lines'
               ↔ n ∈ lines0
                 ∨ ∃ (i : nat) line,
                     body !! i = Some line ∧ startswith line "+" = true
                     ∧ n = current_line st + Z.of_nat i.
Proof.
  intros Hbody Hf Hlines. eexists. split; [by apply scan_lines_body|].
  fields. split_and!; [done.. | |].
  - intros f' Hne. by rewrite lookup_insert_ne.
  - eexists. split; [by rewrite lookup_insert_eq|]. intros n.
    rewrite elem_of_union, elem_of_added_numbers. tauto.
Qed.

Lemma hunk_body_numbers_witness :
  ∃ st',
    scan_lines replaced_line_hunk ["-old"; "+new"; " keep"] = Returned st'
    ∧ current_file st' = current_file replaced_line_hunk
    ∧ current_line st'
      = current_line replaced_line_hunk
        + Z.of_nat (length ["-old"; "+new"; " keep"])
    ∧ (∀ f', f' ≠ "src/a.py" →
             changed_lines st' !! f' = changed_lines replaced_line_hunk !! f')
    ∧ ∃ lines',
        changed_lines st' !! "src/a.py" = Some lines'
        ∧ ∀ n, n ∈ lines'
               ↔ n ∈ (∅ : gset Z)
                 ∨ ∃ (i : nat) line,
                     ["-old"; "+new"; " keep"] !! i = Some line
                     ∧ startswith line "+" = true
                     ∧ n = current_line replaced_line_hunk + Z.of_nat i.
Proof.
  apply (hunk_body_numbers replaced_line_hunk ["-old"; "+new"; " keep"]
           "src/a.py" ∅).
  - repeat constructor.
  - reflexivity.
  - vm_compute. reflexivity.
Defined.

(** ** The two regular expressions *)

(** X5.  The hunk pattern matches a line exactly when the line starts with
    [@@ -a,b +c,d @@] where [a], [b], [c] and [d] are non-empty runs of
    decimal digits, and then group 1 is [c].  A header that leaves a count
    out does not match. *)
Theorem hunk_pattern_language (line g1 : string) :
  (hunk_header_match line = Some g1 ↔ hunk_header line g1)
  ∧ hunk_header_match "@@ -1 +1 @@" = None.
Proof. split; [apply hunk_header_match_spec | by vm_compute]. Qed.

(** X6.  The log pattern matches a line with groups [path] and [num]
    exactly when the whole line reads [path:num:] followed by an optional
    [digits:], white space and a message without line feed (a last line
    feed apart), [path] has no line feed, and no shorter [path] gives such
    a reading: the lazy group takes the first colon that works. *)
Theorem log_pattern_shortest_path (log path num : string) :
  log_pattern_match log = Some (path, num)
  ↔ structured log path num
    ∧ ∀ path' num', structured log path' num' →
                    (String.length path ≤ String.length path')%nat.
Proof. apply log_pattern_match_Some. Qed.

(** X7.  The log pattern fails on a line exactly when the line has no
    reading as [path:num:...] at all. *)
Theorem log_pattern_no_reading (log : string) :
  log_pattern_match log = None ↔ ∀ path num, ¬ structured log path num.
Proof. apply log_pattern_match_None. Qed.

(** ** The log filter *)

Section filter_more.
Implicit Types cl : gmap string (gset Z).
Implicit Types logs out : list string.
Implicit Types log path num key : string.

Lemma keep_log_Raised_inv cl log e :
  keep_log cl log = Raised e →
  e = ValueError
  ∧ ∃ path num, log_pattern_match log = Some (path, num)
                ∧ (contains "src/" path = false
                   ∨ (int_max_str_digits < String.length num)%nat).
Proof.
  intros H. split; [by eapply keep_log_raises|]. revert H.
  unfold keep_log, relative_path.
  destruct (log_pattern_match log) as [[path num]|]; [|done].
  destruct (find "src/" (strip path)) eqn:E.
  - destruct (int num) as [v|e'] eqn:En; [done|]. intros _.
    exists path, num. split; [done|]. right. by apply int_Raised in En as [? _].
  - intros _. exists path, num. split; [done|]. left.
    apply find_None in E. by rewrite contains_strip in E.
Qed.

Lemma keep_log_Raised cl log path num :
  log_pattern_match log = Some (path, num) →
  contains "src/" path = false
  ∨ (int_max_str_digits < String.length num)%nat →
  keep_log cl log = Raised ValueError.
Proof.
  intros Hm Hwhy. destruct (contains "src/" path) eqn:Hc.
  - destruct Hwhy as [? | Hlong]; [done|].
    destruct (relative_path_marked _ Hc) as (key & Hp & _).
    by eapply keep_log_long_number.
  - by eapply keep_log_unmarked.
Qed.

Lemma keep_log_structured_true cl log path num :
  log_pattern_match log = Some (path, num) →
  keep_log cl log = Returned true →
  ∃ key n, relative_path path = Returned key ∧ int num = Returned n
           ∧ is_changed cl key n = true.
Proof.
  intros Hm. unfold keep_log. rewrite Hm.
  destruct (relative_path path) as [key|]; [|done].
  destruct (int num) as [n|]; [|done]. intros [= H]. by exists key, n.
Qed.

Lemma filter_loop_Raised_inv cl logs filtered e :
  filter_loop cl logs filtered = Raised e →
  ∃ log, log ∈ logs ∧ keep_log cl log = Raised e.
Proof.
  revert filtered. induction logs as [|log logs IH]; intros filtered; [done|].
  rewrite filter_loop_cons. destruct (keep_log cl log) as [keep|e'] eqn:E.
  - intros (log' & Hin & H)%IH. exists log'. split; [by right | done].
  - intros [= ->]. exists log. split; [by left | done].
Qed.

Lemma keeps_true cl log : keeps cl log = true ↔ keep_log cl log = Returned true.
Proof.
  unfold keeps. destruct (keep_log cl log) as [[]|]; split; done.
Qed.

Lemma filter_impl_sublist (P Q : string → bool) logs :
  (∀ log, P log = true → Q log = true) →
  filter P logs `sublist_of` filter Q logs.
Proof.
  intros HPQ. induction logs as [|log logs IH]; [done|].
  rewrite !filter_cons. destruct (P log) eqn:HP.
  - rewrite (HPQ _ HP). simpl. by apply sublist_skip.
  - simpl. destruct (Q log); simpl; [by apply sublist_cons | done].
Qed.

Lemma is_substring_trans key s t :
  is_substring key s → is_substring s t → is_substring key t.
Proof.
  intros (p1 & q1 & ->) (p2 & q2 & ->). exists (p2 +:+ p1), (q1 +:+ q2).
  by rewrite !append_assoc.
Qed.

Lemma strip_substring s : is_substring (strip s) s.
Proof.
  unfold strip. destruct (lstrip_suffix s) as [w1 H1].
  destruct (rstrip_prefix (lstrip s)) as [w2 H2].
  exists w1, w2. by rewrite <- H2.
Qed.

(** The key of a structured line the body decides on occurs in the line. *)
Lemma structured_key_substring log path num key :
  log_pattern_match log = Some (path, num) →
  relative_path path = Returned key →
  String.prefix "src/" key = true ∧ is_substring key log.
Proof.
  intros Hm Hp. unfold relative_path in Hp.
  destruct (find "src/" (strip path)) as [i|] eqn:E; [|done].
  injection Hp as <-. apply find_from_first in E as (pre & Hs & Hk & _).
  split; [done|].
  apply log_pattern_match_Some in Hm as [(_ & _ & r & -> & _) _].
  apply (is_substring_trans _ (strip path)).
  - exists pre, EmptyString. by rewrite append_nil_r.
  - apply (is_substring_trans _ path); [apply strip_substring|].
    by exists EmptyString, (":" +:+ num +:+ ":" +:+ r).
Qed.

End filter_more.

Section filter_extras.
Implicit Types cl : gmap string (gset Z).
Implicit Types logs out : list string.
Implicit Types log path num key : string.

(** X8.  The filter raises exactly when the changed lines are not empty
    and some line of the log matches the structured pattern with a path
    that does not contain [src/] or with a number of more than 4300
    digits; the exception is then [ValueError].  In every other case it
    returns. *)
Theorem filter_logs_raises_iff logs cl e :
  filter_logs logs cl = Raised e
  ↔ e = ValueError ∧ cl ≠ ∅
    ∧ ∃ log path num,
        log ∈ logs ∧ log_pattern_match log = Some (path, num)
        ∧ (contains "src/" path = false
           ∨ (int_max_str_digits < String.length num)%nat).
Proof.
  split.
  - destruct (decide (cl = ∅)) as [->|Hne].
    { by rewrite filter_logs_empty_changed. }
    rewrite filter_logs_nonempty_changed by done.
    intros (log & Hin & (-> & path & num & Hm & Hc)%keep_log_Raised_inv
           )%filter_loop_Raised_inv.
    split_and!; [done..|]. by exists log, path, num.
  - intros (-> & Hne & log & path & num & Hin & Hm & Hc).
    rewrite filter_logs_nonempty_changed by done.
    eapply filter_loop_Raised; [done|]. by eapply keep_log_Raised.
Qed.

(** X9.  The filter works line by line: it returns on a log made of two
    parts exactly when it returns on each part, and then the result is the
    result for the first part followed by the result for the second. *)
Theorem filter_logs_app logs1 logs2 cl out :
  filter_logs (logs1 ++ logs2) cl = Returned out
  ↔ ∃ out1 out2, filter_logs logs1 cl = Returned out1
                 ∧ filter_logs logs2 cl = Returned out2
                 ∧ out = out1 ++ out2.
Proof.
  destruct (decide (cl = ∅)) as [->|Hne].
  - rewrite !filter_logs_empty_changed. split.
    + intros [= <-]. by exists [], [].
    + by intros (out1 & out2 & [= <-] & [= <-] & ->).
  - rewrite !filter_logs_nonempty_changed by done. split.
    + intros [[H1 H2]%Forall_app ->]%filter_loop_Returned.
      exists (filter (keeps cl) logs1), (filter (keeps cl) logs2).
      split_and!; [by apply filter_loop_Returned.. | by rewrite filter_app].
    + intros (out1 & out2 & [H1 ->]%filter_loop_Returned
              & [H2 ->]%filter_loop_Returned & ->).
      apply filter_loop_Returned. split; [by apply Forall_app|].
      by rewrite filter_app.
Qed.

(** X10.  More changed lines never lose a log line: when every key of one
    dictionary is a key of another with a set at least as large, what the
    filter returns with the first is a sublist of what it returns with the
    second. *)
Theorem filter_logs_monotone logs cl cl' out out' :
  (∀ key lines, cl !! key = Some lines →
                ∃ lines', cl' !! key = Some lines' ∧ lines ⊆ lines') →
  filter_logs logs cl = Returned out →
  filter_logs logs cl' = Returned out' →
  out `sublist_of` out'.
Proof.
  intros Hsub ->%filter_logs_Returned ->%filter_logs_Returned.
  apply filter_impl_sublist. intros log. rewrite !keeps_true.
  destruct (log_pattern_match log) as [[path num]|] eqn:Hm.
  - intros (key & n & Hp & Hn & H)%(keep_log_structured_true _ _ _ _ Hm).
    rewrite (keep_log_structured cl' _ _ _ _ _ Hm Hp Hn). f_equal.
    apply is_changed_spec in H as (lines & Hk & Hin).
    destruct (Hsub _ _ Hk) as (lines' & Hk' & Hincl).
    apply is_changed_spec. exists lines'. split; [done|]. by apply Hincl.
  - rewrite !(keep_log_free _ _ Hm). intros [= H]. f_equal.
    apply mentions_changed_file_spec in H as (key & [lines Hk]%elem_of_dom & Hs).
    destruct (Hsub _ _ Hk) as (lines' & Hk' & _).
    apply mentions_changed_file_spec. exists key. split; [|done].
    apply elem_of_dom. by exists lines'.
Qed.

Lemma filter_logs_monotone_witness :
  ["src/a.py:10:5: unused import"]
    `sublist_of` ["src/a.py:10:5: unused import"; "src/a.py:99: other"].
Proof.
  apply (filter_logs_monotone
           ["src/a.py:10:5: unused import"; "src/a.py:99: other"]
           changed_a {[ "src/a.py" := {[10; 11; 99]} ]}).
  - unfold changed_a. intros key lines [<- <-]%lookup_singleton_Some.
    exists {[10; 11; 99]}. split; [by rewrite lookup_singleton_eq|].
    set_solver.
  - vm_compute. reflexivity.
  - vm_compute. reflexivity.
Defined.

(** X11.  A line that matches the structured pattern can only be kept
    through a key that starts with [src/].  With changed lines whose keys
    all start otherwise, such as the repository path [app/main.py], every
    line the filter keeps is one that does not match the structured
    pattern. *)
Theorem structured_needs_src_key logs cl out log :
  (∀ key, key ∈ dom cl → String.prefix "src/" key = false) →
  filter_logs logs cl = Returned out →
  log ∈ out →
  log_pattern_match log = None.
Proof.
  intros Hkeys Hout [_ Hk%keeps_true]%(filter_logs_elem_of _ _ _ _ Hout).
  destruct (log_pattern_match log) as [[path num]|] eqn:Hm; [|done].
  destruct (keep_log_structured_true _ _ _ _ Hm Hk) as (key & n & Hp & _ & Hc).
  apply is_changed_spec in Hc as (lines & Hkey & _).
  destruct (structured_key_substring _ _ _ _ Hm Hp) as [Hsrc _].
  rewrite Hkeys in Hsrc; [done|]. apply elem_of_dom. by exists lines.
Qed.

Lemma structured_needs_src_key_witness :
  log_pattern_match "reformatted app/main.py" = None.
Proof.
  apply (structured_needs_src_key
           ["src/app/main.py:10: unused"; "reformatted app/main.py"]
           changed_app ["reformatted app/main.py"]).
  - intros key. unfold changed_app. rewrite dom_singleton_L.
    intros ->%elem_of_singleton. reflexivity.
  - vm_compute. reflexivity.
  - apply list_elem_of_here.
Defined.

(** X12.  The empty string occurs in every line.  So when the empty string
    is a key, as it is after the header line [+++ b/], every line that does
    not match the structured pattern is kept. *)
Theorem empty_key_keeps_free_lines cl lines log :
  cl !! EmptyString = Some lines →
  log_pattern_match log = None →
  filter_logs [log] cl = Returned [log]
  ∧ ∀ logs out, filter_logs logs cl = Returned out → log ∈ logs → log ∈ out.
Proof.
  intros Hkey Hm. pose proof (keep_log_free cl _ Hm) as Hkeep.
  assert (mentions_changed_file cl log = true) as Hmen.
  { apply mentions_changed_file_spec. exists EmptyString. split.
    - apply elem_of_dom. by exists lines.
    - by exists EmptyString, log. }
  rewrite Hmen in Hkeep. split.
  - by rewrite (filter_logs_single _ _ _ Hkeep).
  - intros logs out Hout Hin. apply (filter_logs_elem_of _ _ _ _ Hout).
    split; [done|]. by apply keeps_true.
Qed.

Lemma empty_key_keeps_free_lines_witness :
  changed_lines_of_diff "+++ b/" = Returned changed_blank
  ∧ filter_logs ["All done!"] changed_blank = Returned ["All done!"]
  ∧ ∀ logs out,
      filter_logs logs changed_blank = Returned out →
      "All done!" ∈ logs → "All done!" ∈ out.
Proof.
  split; [by vm_compute|].
  apply (empty_key_keeps_free_lines changed_blank ∅ "All done!").
  - vm_compute. reflexivity.
  - vm_compute. reflexivity.
Defined.

(** X13.  Every line the filter keeps mentions a changed file: some key of
    the changed lines occurs in it as a substring. *)
Theorem kept_line_mentions_key logs cl out log :
  filter_logs logs cl = Returned out →
  log ∈ out →
  ∃ key, key ∈ dom cl ∧ is_substring key log.
Proof.
  intros Hout [_ Hk%keeps_true]%(filter_logs_elem_of _ _ _ _ Hout).
  destruct (log_pattern_match log) as [[path num]|] eqn:Hm.
  - destruct (keep_log_structured_true _ _ _ _ Hm Hk)
      as (key & n & Hp & _ & Hc).
    apply is_changed_spec in Hc as (lines & Hkey & _).
    exists key. split; [apply elem_of_dom; by exists lines|].
    by destruct (structured_key_substring _ _ _ _ Hm Hp).
  - rewrite (keep_log_free _ _ Hm) in Hk. injection Hk as Hk.
    by apply mentions_changed_file_spec.
Qed.

Lemma kept_line_mentions_key_witness :
  ∃ key, key ∈ dom changed_a
         ∧ is_substring key "/home/user/project/src/a.py:10: msg".
Proof.
  apply (kept_line_mentions_key
           ["/home/user/project/src/a.py:10: msg"; "src/a.py:99: other"]
           changed_a ["/home/user/project/src/a.py:10: msg"]).
  - vm_compute. reflexivity.
  - apply list_elem_of_here.
Defined.

End filter_extras.

(** ** Reading the saved log *)

Section lines_facts.
Implicit Types s x rest : string.
Implicit Types c : ascii.

Lemma islinebreak_LF : islinebreak LF = true.
Proof. done. Qed.

Lemma append_nil_l s : EmptyString +:+ s = s.
Proof. done. Qed.

Lemma splitlines_cons c s :
  splitlines (String c s) =
  if islinebreak c then
    match s with
    | String c' s'' =>
        if Ascii.eqb c (ascii_of_N 13) && Ascii.eqb c' LF
        then EmptyString :: splitlines s''
        else EmptyString :: splitlines s
    | EmptyString => [EmptyString]
    end
  else
    match splitlines s with
    | [] => [String c EmptyString]
    | l :: ls => String c l :: ls
    end.
Proof. done. Qed.

Lemma splitlines_no_linebreak s :
  Forall (λ line, no_linebreak line = true) (splitlines s).
Proof.
  induction s as [|c s IH]; [by apply Forall_nil|].
  rewrite splitlines_cons. destruct (islinebreak c) eqn:Hc.
  - destruct s as [|c' s]; [by repeat constructor|].
    destruct (Ascii.eqb c (ascii_of_N 13) && Ascii.eqb c' LF) eqn:Hcr;
      [|by constructor].
    constructor; [done|].
    apply andb_true_iff in Hcr as [_ ->%Ascii.eqb_eq].
    rewrite splitlines_cons, islinebreak_LF in IH.
    destruct s as [|c'' s]; [by apply Forall_nil|].
    change (Ascii.eqb LF (ascii_of_N 13)) with false in IH.
    by apply Forall_cons in IH as [_ IH].
  - destruct (splitlines s) as [|l ls]; constructor; try done.
    + simpl. by rewrite Hc.
    + apply Forall_cons in IH as [Hl _]. simpl. by rewrite Hc, Hl.
    + by apply Forall_cons in IH as [_ IH].
Qed.

Lemma splitlines_one_line s :
  no_linebreak s = true → s ≠ EmptyString → splitlines s = [s].
Proof.
  induction s as [|c s IH]; [done|]. intros [Hc Hs]%andb_true_iff _.
  apply negb_true_iff in Hc. rewrite splitlines_cons, Hc.
  destruct s as [|c' s]; [done|]. by rewrite IH.
Qed.

Lemma splitlines_first_line x rest :
  no_linebreak x = true →
  splitlines (x +:+ String LF rest) = x :: splitlines rest.
Proof.
  induction x as [|c x IH].
  - intros _. rewrite append_nil_l, splitlines_cons, islinebreak_LF.
    by destruct rest.
  - intros [Hc Hx]%andb_true_iff. apply negb_true_iff in Hc.
    by rewrite append_cons_l, splitlines_cons, Hc, IH.
Qed.

Lemma join_cons_cons sep x y (l : list string) :
  join sep (x :: y :: l) = x +:+ sep +:+ join sep (y :: l).
Proof. done. Qed.

End lines_facts.

(** X14.  [read_saved_logs] either returns the lines of the file, none of
    which contains a line boundary, and prints nothing; or, when the file
    is missing, prints [Log file ... not found.] to the standard error and
    exits with status 1. *)
Theorem saved_log_lines (w : world) (log_file : string) :
  (∀ text, file_contents w log_file = Some text →
           read_saved_logs w log_file = IO [] (Returned (splitlines text))
           ∧ Forall (λ line, no_linebreak line = true) (splitlines text))
  ∧ (file_contents w log_file = None →
     read_saved_logs w log_file
     = IO [(Stderr, "Log file " +:+ log_file +:+ " not found.")]
          (Raised (SystemExit 1))).
Proof.
  unfold read_saved_logs. split.
  - intros text ->. split; [done | apply splitlines_no_linebreak].
  - by intros ->.
Qed.

Lemma saved_log_lines_witness :
  read_saved_logs log_saved "/home/user/working/git_output.log"
  = IO [] (Returned [ "src/a.py:10:5: unused import"; "src/a.py:99: other";
                      "black: reformatted src/a.py" ])
  ∧ read_saved_logs log_missing "/home/user/working/git_output.log"
    = IO [(Stderr, "Log file /home/user/working/git_output.log not found.")]
         (Raised (SystemExit 1)).
Proof.
  split.
  - destruct (proj1 (saved_log_lines log_saved
                       "/home/user/working/git_output.log")
                _ eq_refl) as [-> _].
    vm_compute. reflexivity.
  - apply (proj2 (saved_log_lines log_missing
                    "/home/user/working/git_output.log")).
    reflexivity.
Defined.

(** X15.  Lines joined by line feeds split back into the same lines:
    [splitlines] undoes ["\n".join] on lines without line boundaries, as
    long as the last line is not empty. *)
Theorem joined_lines_split_back (lines : list string) :
  Forall (λ line, no_linebreak line = true) lines →
  last lines ≠ Some EmptyString →
  splitlines (join (String LF EmptyString) lines) = lines.
Proof.
  induction lines as [|x [|y lines] IH]; intros Hall Hlast.
  - done.
  - apply Forall_cons in Hall as [Hx _]. simpl.
    apply splitlines_one_line; [done|]. intros ->. by apply Hlast.
  - apply Forall_cons in Hall as [Hx Hall].
    rewrite join_cons_cons, append_cons_l, append_nil_l.
    rewrite splitlines_first_line by done. f_equal. by apply IH.
Qed.

Lemma joined_lines_split_back_witness :
  splitlines (join (String LF EmptyString)
                [ "src/a.py:10:5: unused import"; ""; "All done!" ])
  = [ "src/a.py:10:5: unused import"; ""; "All done!" ].
Proof.
  apply (joined_lines_split_back
           [ "src/a.py:10:5: unused import"; ""; "All done!" ]).
  - repeat constructor.
  - discriminate.
Defined.

(** ** The whole run *)

Lemma filter_logs_Raised_ValueError (logs : list string)
    (cl : gmap string (gset Z)) (e : exn) :
  filter_logs logs cl = Raised e → e = ValueError.
Proof.
  destruct (decide (cl = ∅)) as [->|Hne].
  { by rewrite filter_logs_empty_changed. }
  rewrite filter_logs_nonempty_changed by done.
  intros (log & _ & H)%filter_loop_Raised_inv. by eapply keep_log_raises.
Qed.

(** Without a file header the loop has no current file: it converts no
    number, records nothing and returns. *)
Lemma scan_lines_no_header (st : scan_state) (lines : list string) :
  current_file st = None →
  header_paths lines = [] →
  ∃ st', scan_lines st lines = Returned st'
         ∧ changed_lines st' = changed_lines st.
Proof.
  revert st. induction lines as [|line lines IH]; intros st Hfile Hnone.
  - by exists st.
  - rewrite header_paths_cons in Hnone.
    apply app_eq_nil in Hnone as [Hline Hnone].
    assert (startswith line "+++ b/" = false) as Hhead.
    { unfold header_paths in Hline. cbn [omap list_omap] in Hline.
      by destruct (startswith line "+++ b/"). }
    assert (∃ st1, scan_line st line = Returned st1
                   ∧ current_file st1 = None
                   ∧ changed_lines st1 = changed_lines st) as (st1 & H1 & Hf1 & Hc1).
    { unfold scan_line. rewrite Hhead, Hfile. cbn [truthy].
      destruct (startswith line "@@").
      - exists st. by destruct (hunk_header_match line).
      - destruct (startswith line "+");
          (destruct (startswith line " " || startswith line "-");
           [eexists; split; [done|]; by fields | by exists st]). }
    destruct (IH st1 Hf1 Hnone) as (st' & H' & Hc').
    exists st'. rewrite scan_lines_cons, H1. split; [done | congruence].
Qed.

Lemma no_header_no_changes (d : string) :
  header_paths (splitlines d) = [] → changed_lines_of_diff d = Returned ∅.
Proof.
  intros Hnone.
  destruct (scan_lines_no_header scan_init (splitlines d) eq_refl Hnone)
    as (st & Hst & Hcl).
  apply changed_lines_of_diff_Returned. by exists st.
Qed.

(** A diff that names a file and on which the extractor returns gives
    changed lines that are not empty. *)
Lemma header_some_changes (d : string) (cl : gmap string (gset Z)) :
  changed_lines_of_diff d = Returned cl →
  header_paths (splitlines d) ≠ [] → cl ≠ ∅.
Proof.
  intros (st & Hst & <-)%changed_lines_of_diff_Returned Hsome Hempty.
  pose proof (scan_lines_dom _ _ _ Hst) as Hdom.
  rewrite Hempty in Hdom. cbn [scan_init changed_lines] in Hdom.
  rewrite dom_empty_L, (left_id_L ∅ (∪)) in Hdom.
  destruct (header_paths (splitlines d)) as [|f fs]; [done|].
  cbn [list_to_set] in Hdom. set_solver.
Qed.

Section run_extras.
Implicit Types w : world.
Implicit Types cl : gmap string (gset Z).

(** X16.  When the staged diff has no [+++ b/] header, as when only
    deletions are staged, no file is a key: the run prints its first
    banner, then the note that there is nothing to process, and exits with
    status 0 without reading the log. *)
Theorem no_header_exits_zero w d :
  git_diff_staged w = GitOutput d →
  header_paths (splitlines d) = [] →
  changed_lines_of_diff d = Returned ∅
  ∧ main w
    = IO [ (Stdout, "======== Getting changed lines =============");
           (Stderr, "No staged files or changed lines to process.") ]
         (Raised (SystemExit 0))
  ∧ exit_status (main w) = 0.
Proof.
  intros Hgit Hnone. pose proof (no_header_no_changes d Hnone) as Hcl.
  assert (main w
          = IO [ (Stdout, "======== Getting changed lines =============");
                 (Stderr, "No staged files or changed lines to process.") ]
               (Raised (SystemExit 0))) as Hmain.
  { rewrite main_outcomes, Hgit, Hcl. by rewrite bool_decide_eq_true_2. }
  split_and!; [done..|]. by rewrite Hmain.
Qed.

Lemma no_header_exits_zero_witness :
  changed_lines_of_diff deleted_file_diff = Returned ∅
  ∧ main deletion_staged
    = IO [ (Stdout, "======== Getting changed lines =============");
           (Stderr, "No staged files or changed lines to process.") ]
         (Raised (SystemExit 0))
  ∧ exit_status (main deletion_staged) = 0.
Proof.
  apply (no_header_exits_zero deletion_staged deleted_file_diff).
  - reflexivity.
  - vm_compute. reflexivity.
Defined.

(** X17.  When git fails, the run prints its first banner, then the error
    with the text of the exception to the standard error, and exits with
    status 1; the log is not read and nothing is filtered. *)
Theorem git_failure_exits_one w e :
  git_diff_staged w = CalledProcessError e →
  main w
  = IO [ (Stdout, "======== Getting changed lines =============");
         (Stderr, "Error getting git diff: " +:+ e) ]
       (Raised (SystemExit 1))
  ∧ exit_status (main w) = 1.
Proof.
  intros Hgit.
  assert (main w
          = IO [ (Stdout, "======== Getting changed lines =============");
                 (Stderr, "Error getting git diff: " +:+ e) ]
               (Raised (SystemExit 1))) as Hmain
    by (by rewrite main_outcomes, Hgit).
  split; [done|]. by rewrite Hmain.
Qed.

Lemma git_failure_exits_one_witness :
  exit_status (main git_fails) = 1.
Proof.
  apply (git_failure_exits_one git_fails
           "Command '['git', 'diff', '--staged']' returned non-zero exit status 129.").
  reflexivity.
Defined.

(** X18.  When the extractor returns for a diff that names a file, and
    the log file is missing, the run prints its first banner, then
    [Log file ... not found.] with the path to the standard error, and
    exits with status 1. *)
Theorem missing_log_exits_one w d cl :
  git_diff_staged w = GitOutput d →
  changed_lines_of_diff d = Returned cl →
  header_paths (splitlines d) ≠ [] →
  file_contents w (output_path w) = None →
  main w
  = IO [ (Stdout, "======== Getting changed lines =============");
         (Stderr, "Log file " +:+ output_path w +:+ " not found.") ]
       (Raised (SystemExit 1))
  ∧ exit_status (main w) = 1.
Proof.
  intros Hgit Hcl Hsome Hlog.
  pose proof (header_some_changes _ _ Hcl Hsome) as Hne.
  assert (main w
          = IO [ (Stdout, "======== Getting changed lines =============");
                 (Stderr, "Log file " +:+ output_path w +:+ " not found.") ]
               (Raised (SystemExit 1))) as Hmain.
  { rewrite main_outcomes, Hgit, Hcl, Hlog. by rewrite bool_decide_eq_false_2. }
  split; [done|]. by rewrite Hmain.
Qed.

Lemma missing_log_exits_one_witness :
  main log_missing
  = IO [ (Stdout, "======== Getting changed lines =============");
         (Stderr, "Log file " +:+ output_path log_missing +:+ " not found.") ]
       (Raised (SystemExit 1))
  ∧ exit_status (main log_missing) = 1.
Proof.
  apply (missing_log_exits_one log_missing added_lines_diff changed_a).
  - reflexivity.
  - vm_compute. reflexivity.
  - vm_compute. discriminate.
  - reflexivity.
Defined.

(** X19.  The exit status of a run is 0 or 1.  It is 0 exactly when git
    succeeds and either the diff yields no changed lines, or the log file
    can be read and the filter returns on it. *)
Theorem exit_status_zero_iff w :
  (exit_status (main w) = 0 ∨ exit_status (main w) = 1)
  ∧ (exit_status (main w) = 0
     ↔ ∃ d cl,
         git_diff_staged w = GitOutput d
         ∧ changed_lines_of_diff d = Returned cl
         ∧ (cl = ∅
            ∨ ∃ text out,
                file_contents w (output_path w) = Some text
                ∧ filter_logs (splitlines text) cl = Returned out)).
Proof.
  rewrite main_outcomes. cbv zeta.
  destruct (git_diff_staged w) as [d|e] eqn:Hgit.
  2:{ split; [by right|]. split; [done | by intros (d & cl & [=] & _)]. }
  destruct (changed_lines_of_diff d) as [cl|e] eqn:Hcl.
  2:{ pose proof (changed_lines_of_diff_raises _ _ Hcl) as ->.
      split; [by right|]. split; [done|].
      intros (d' & cl & [= <-] & Hcl' & _). congruence. }
  case_bool_decide as Hempty.
  { split; [by left|]. split; [|done]. intros _. exists d, cl. by eauto. }
  destruct (file_contents w (output_path w)) as [text|] eqn:Hlog.
  2:{ split; [by right|]. split; [done|].
      intros (d' & cl' & [= <-] & Hcl' & [-> | (text & out & [=] & _)]).
      rewrite Hcl in Hcl'. by injection Hcl' as ->. }
  destruct (filter_logs (splitlines text) cl) as [out|e] eqn:Hf.
  - assert (exit_status
              match out with
              | [] =>
                  IO [ (Stdout, "======== Getting changed lines =============");
                       (Stdout, "======== Filtered Logs =============");
                       (Stdout,
                        "No logs found for changed lines in staged files.") ]
                     (Returned ())
              | log :: logs =>
                  IO [ (Stdout, "======== Getting changed lines =============");
                       (Stdout, "======== Filtered Logs =============");
                       (Stdout, join (String LF EmptyString) (log :: logs)) ]
                     (Returned ())
              end = 0) as -> by (by destruct out).
    split; [by left|]. split; [|done]. intros _. exists d, cl.
    split_and!; [done..|]. right. by exists text, out.
  - pose proof (filter_logs_Raised_ValueError _ _ _ Hf) as ->.
    split; [by right|]. split; [done|].
    intros (d' & cl' & [= <-] & Hcl' & [-> | (text' & out & [= <-] & Hout)]).
    + rewrite Hcl in Hcl'. by injection Hcl' as ->.
    + rewrite Hcl in Hcl'. injection Hcl' as <-. congruence.
Qed.

(** X20.  When git succeeds with changed lines, the log can be read and
    the filter returns, the run ends normally with status 0 and prints
    nothing to the standard error.  Its standard output is the two
    banners followed by one text: the kept lines joined by line feeds, or,
    when no line is kept, the note that no logs were found.  The kept
    lines are a sublist of the lines of the log file. *)
Theorem filtered_run_output w d cl text out :
  git_diff_staged w = GitOutput d →
  changed_lines_of_diff d = Returned cl →
  cl ≠ ∅ →
  file_contents w (output_path w) = Some text →
  filter_logs (splitlines text) cl = Returned out →
  ended (main w) = Returned ()
  ∧ exit_status (main w) = 0
  ∧ printed_to Stderr (main w) = []
  ∧ printed_to Stdout (main w)
    = [ "======== Getting changed lines =============";
        "======== Filtered Logs =============";
        match out with
        | [] => "No logs found for changed lines in staged files."
        | _ :: _ => join (String LF EmptyString) out
        end ]
  ∧ out `sublist_of` splitlines text.
Proof.
  intros Hgit Hcl Hne Hlog Hout.
  rewrite main_outcomes, Hgit, Hcl, Hlog, Hout. cbv zeta.
  rewrite bool_decide_eq_false_2 by done.
  split_and!; [by destruct out.. |].
  apply filter_logs_Returned in Hout as ->. apply sublist_filter.
Qed.

Lemma filtered_run_output_witness :
  ended (main log_saved) = Returned ()
  ∧ exit_status (main log_saved) = 0
  ∧ printed_to Stderr (main log_saved) = []
  ∧ printed_to Stdout (main log_saved)
    = [ "======== Getting changed lines =============";
        "======== Filtered Logs =============";
        match [ "src/a.py:10:5: unused import";
                "black: reformatted src/a.py" ] with
        | [] => "No logs found for changed lines in staged files."
        | _ :: _ =>
            join (String LF EmptyString)
              [ "src/a.py:10:5: unused import"; "black: reformatted src/a.py" ]
        end ]
  ∧ [ "src/a.py:10:5: unused import"; "black: reformatted src/a.py" ]
      `sublist_of`
      splitlines (unlines [ "src/a.py:10:5: unused import";
                            "src/a.py:99: other";
                            "black: reformatted src/a.py" ]).
Proof.
  apply (filtered_run_output log_saved added_lines_diff changed_a).
  - reflexivity.
  - vm_compute. reflexivity.
  - apply (bool_decide_eq_false_1 (changed_a = ∅)). vm_compute. reflexivity.
  - reflexivity.
  - vm_compute. reflexivity.
Defined.

End run_extras.

(** ** The key of a structured line *)

Section key_facts.
Implicit Types s t path key : string.
Implicit Types c : ascii.

Lemma rstrip_cons_nil c s : rstrip (String c s) = EmptyString → isspace c = true.
Proof.
  simpl. destruct (rstrip s); [|done]. by destruct (isspace c).
Qed.

Lemma rstrip_idemp s : rstrip (rstrip s) = rstrip s.
Proof.
  induction s as [|c s IH]; [done|]. simpl.
  destruct (rstrip s) as [|c' r] eqn:E.
  - destruct (isspace c) eqn:Hc; [done|]. simpl. by rewrite Hc.
  - simpl in IH |- *. by rewrite IH.
Qed.

Lemma find_prefix m s : String.prefix m s = true → find m s = Some O.
Proof.
  intros H. destruct s; [rewrite find_nil | rewrite find_cons]; by rewrite H.
Qed.

(** The key cut out of a path starts with the marker and has no white
    space around it. *)
Lemma relative_path_key path key :
  relative_path path = Returned key →
  String.prefix "src/" key = true ∧ strip key = key.
Proof.
  unfold relative_path.
  destruct (find "src/" (strip path)) as [i|] eqn:E; [|done].
  intros [= <-]. apply find_from_first in E as (pre & Hs & Hk & _).
  split; [done|]. set (key := drop_chars i (strip path)) in *.
  apply prefix_spec in Hk as Hkey. destruct Hkey as [t Hkey].
  assert (lstrip key = key) as Hl by (by rewrite Hkey).
  assert (rstrip key ≠ EmptyString) as Hne.
  { rewrite Hkey. by intros ?%rstrip_cons_nil. }
  assert (rstrip key = key) as Hr.
  { assert (rstrip (strip path) = strip path) as Hfix by apply rstrip_idemp.
    rewrite Hs, rstrip_append in Hfix by done. by apply append_inj_l in Hfix. }
  unfold strip. by rewrite Hl.
Qed.

End key_facts.

(** X21.  The key that a structured line is looked up with starts with
    [src/] and has no white space around it, and cutting it again changes
    nothing: the path of a key is the key itself. *)
Theorem relative_path_idempotent (path key : string) :
  relative_path path = Returned key →
  String.prefix "src/" key = true
  ∧ strip key = key
  ∧ relative_path key = Returned key.
Proof.
  intros [Hk Hs]%relative_path_key. split_and!; [done..|].
  unfold relative_path. by rewrite Hs, (find_prefix _ _ Hk).
Qed.

Lemma relative_path_idempotent_witness :
  String.prefix "src/" "src/a.py" = true
  ∧ strip "src/a.py" = "src/a.py"
  ∧ relative_path "src/a.py" = Returned "src/a.py".
Proof.
  apply (relative_path_idempotent "  /home/user/project/src/a.py " "src/a.py").
  vm_compute. reflexivity.
Defined.

(** ** One file, one hunk *)

Section one_hunk.
Implicit Types st : scan_state.
Implicit Types header hunk f g : string.
Implicit Types body : list string.

Lemma hunk_header_match_starts hunk g :
  hunk_header_match hunk = Some g →
  startswith hunk "+++ b/" = false ∧ startswith hunk "@@" = true.
Proof.
  intros (a & b & d & rest & -> & _)%hunk_header_match_spec.
  split; by vm_compute.
Qed.

Lemma truthy_nonempty f : f ≠ EmptyString → truthy (Some f) = Some f.
Proof. by destruct f. Qed.

(** X22.  A file header, then a hunk header with both counts, then a hunk
    body.  When the new start of the hunk header has more than 4300 digits
    the loop raises [ValueError].  Otherwise, whatever was scanned before,
    the file named by the header (when its name is not empty) ends up with
    exactly the numbers start + i for the body lines i that start with a
    plus, where start is the new start of the hunk header and i counts
    every body line, removed lines too.  Any earlier set of the same file
    is discarded, and the sets of the other files are kept. *)
Theorem file_hunk_record st header hunk body f g :
  startswith header "+++ b/" = true →
  strip (drop_chars 6 header) = f →
  f ≠ EmptyString →
  hunk_header_match hunk = Some g →
  Forall (λ line, body_line line = true) body →
  ((int_max_str_digits < String.length g)%nat →
   scan_lines st (header :: hunk :: body) = Raised ValueError)
  ∧ ((String.length g ≤ int_max_str_digits)%nat →
     ∃ st',
       scan_lines st (header :: hunk :: body) = Returned st'
       ∧ current_file st' = Some f
       ∧ current_line st' = digits_value g + Z.of_nat (length body)
       ∧ (∀ f', f' ≠ f → changed_lines st' !! f' = changed_lines st !! f')
       ∧ ∃ lines,
           changed_lines st' !! f = Some lines
           ∧ ∀ n, n ∈ lines
                  ↔ ∃ (i : nat) line,
                      body !! i = Some line ∧ startswith line "+" = true
                      ∧ n = digits_value g + Z.of_nat i).
Proof.
  intros Hhead Hf Hne Hg Hbody.
  destruct (hunk_header_match_starts _ _ Hg) as [Hnot Hat].
  assert (scan_line st header
          = Returned {| changed_lines := <[f := ∅]> (changed_lines st);
                        current_file := Some f;
                        current_line := 0 |}) as H1.
  { unfold scan_line. by rewrite Hhead, Hf. }
  assert (scan_line {| changed_lines := <[f := ∅]> (changed_lines st);
                       current_file := Some f;
                       current_line := 0 |} hunk
          = int g ≫= λ start,
              Returned {| changed_lines := <[f := ∅]> (changed_lines st);
                          current_file := Some f;
                          current_line := start |}) as H2.
  { unfold scan_line. rewrite Hnot, Hat, Hg. fields.
    by rewrite (truthy_nonempty _ Hne). }
  rewrite scan_lines_cons, H1.
  change (Returned ?x ≫= ?k) with (k x). cbv beta.
  rewrite scan_lines_cons, H2. split.
  - intros Hlong. by rewrite (proj2 (int_Raised g ValueError)).
  - intros Hshort. rewrite (proj2 (int_Returned g (digits_value g))) by done.
    eexists. split.
    { change (Returned ?x ≫= ?k) with (k x). cbv beta.
      change (Returned ?x ≫= ?k) with (k x). cbv beta.
      apply (scan_lines_body _ _ f ∅); fields;
        [done | by apply truthy_nonempty | by rewrite lookup_insert_eq]. }
    fields. split_and!; [done.. | |].
    + intros f' Hf'. by rewrite insert_insert_eq, lookup_insert_ne.
    + eexists. split; [by rewrite lookup_insert_eq|]. intros n.
      rewrite elem_of_union, elem_of_added_numbers. set_solver.
Qed.

Lemma file_hunk_record_witness :
  scan_lines scan_init
    ["+++ b/src/a.py"; "@@ -1,2 +" +:+ long_number +:+ ",2 @@"; "+new"]
  = Raised ValueError
  ∧ ∃ st',
      scan_lines scan_init
        ["+++ b/src/a.py"; "@@ -1,2 +1,2 @@"; "-old"; "+new"; " keep"]
      = Returned st'
      ∧ current_file st' = Some "src/a.py"
      ∧ current_line st'
        = digits_value "1" + Z.of_nat (length ["-old"; "+new"; " keep"])
      ∧ (∀ f', f' ≠ "src/a.py" →
               changed_lines st' !! f' = changed_lines scan_init !! f')
      ∧ ∃ lines,
          changed_lines st' !! "src/a.py" = Some lines
          ∧ ∀ n, n ∈ lines
                 ↔ ∃ (i : nat) line,
                     ["-old"; "+new"; " keep"] !! i = Some line
                     ∧ startswith line "+" = true
                     ∧ n = digits_value "1" + Z.of_nat i.
Proof.
  split.
  - apply (proj1 (file_hunk_record scan_init "+++ b/src/a.py"
                    ("@@ -1,2 +" +:+ long_number +:+ ",2 @@") ["+new"]
                    "src/a.py" long_number
                    eq_refl ltac:(by vm_compute) ltac:(discriminate)
                    ltac:(by vm_compute) ltac:(repeat constructor))).
    vm_compute. lia.
  - apply (proj2 (file_hunk_record scan_init "+++ b/src/a.py"
                    "@@ -1,2 +1,2 @@" ["-old"; "+new"; " keep"]
                    "src/a.py" "1"
                    eq_refl ltac:(by vm_compute) ltac:(discriminate)
                    ltac:(by vm_compute) ltac:(repeat constructor))).
    vm_compute. lia.
Defined.

End one_hunk.
